(** * deEmergencia: session reducer, auth session manager, bar service
      client and form validation

    A shallow embedding of
    - [src/app/context/AuthContext.tsx] (token helpers, [authReducer],
      [checkExistingAuth], [login], [logout]),
    - [src/app/services/BarService.tsx] (the methods that read the current
      user),
    - [AddMenuItemScreen.validateForm] and [ReviewModal.handleSubmit],
    followed by the theorems about them.

    JavaScript strings are modelled as [string]; one [ascii] stands for one
    code unit, so [String.length] is the [.length] of the source.  Console
    output is not modelled. *)

From Stdlib Require Import Ascii String ZArith Uint63 Floats.
From stdpp Require Import gmap strings list.

Open Scope string_scope.

(** ** JavaScript values shared by the modules *)

(** JavaScript truthiness of a [string | undefined] value: [undefined] and
    the empty string are falsy. *)
Definition truthy (s : option string) : bool :=
  match s with
  | Some (String _ _) => true
  | _ => false
  end.

(** [a || b] with a [string | undefined] left operand and a string right
    operand. *)
Definition or_else (a : option string) (b : string) : string :=
  match a with
  | Some (String c s) => String c s
  | _ => b
  end.

(** [String.prototype.trim] on code units below 256: the white space and
    line terminators there are TAB, LF, VT, FF, CR, SPACE and NBSP. *)
Definition is_whitespace (c : ascii) : bool :=
  let n := nat_of_ascii c in
  (n =? 9)%nat || (n =? 10)%nat || (n =? 11)%nat || (n =? 12)%nat ||
  (n =? 13)%nat || (n =? 32)%nat || (n =? 160)%nat.

Fixpoint trimStart (s : string) : string :=
  match s with
  | EmptyString => EmptyString
  | String c rest => if is_whitespace c then trimStart rest else s
  end.

Fixpoint trimEnd (s : string) : string :=
  match s with
  | EmptyString => EmptyString
  | String c rest =>
      match trimEnd rest with
      | EmptyString => if is_whitespace c then EmptyString else String c EmptyString
      | kept => String c kept
      end
  end.

Definition trim (s : string) : string := trimEnd (trimStart s).

(** [!s] for a string [s]. *)
Definition is_empty (s : string) : bool :=
  match s with
  | EmptyString => true
  | String _ _ => false
  end.

(** The optional chain [error.response?.data?.message] of an axios error:
    each level may be missing. *)
Record ErrorData : Type := mkErrorData { data_message : option string }.

Record ErrorResponse : Type := mkErrorResponse {
  response_status : nat;
  response_data : option ErrorData
}.

(** What a [throw] carries.  All of them are [instanceof Error];
    [axios.isAxiosError] holds of [AxiosError] only. *)
Inductive JsError : Type :=
  | Error (message : string)
  | TypeError (message : string)
  | AxiosError (message : string) (response : option ErrorResponse).

Definition error_message (e : JsError) : string :=
  match e with
  | Error m | TypeError m | AxiosError m _ => m
  end.

Definition isAxiosError (e : JsError) : bool :=
  match e with
  | AxiosError _ _ => true
  | _ => false
  end.

(** A settled promise: the value an [await] yields, or the error it
    throws. *)
Inductive Settled (A : Type) : Type :=
  | Resolved (v : A)
  | Rejected (e : JsError).
Arguments Resolved {A} v.
Arguments Rejected {A} e.

(** *** Asynchronous functions

    An [async] function over a mutable environment [S]: it runs from a
    state of [S] to a settled promise and the state it leaves behind.  A
    thrown error keeps the effects made before it. *)
Definition Prog (S A : Type) : Type := S -> Settled A * S.

Definition ret {S A} (v : A) : Prog S A := fun s => (Resolved v, s).

Definition throw {S A} (e : JsError) : Prog S A := fun s => (Rejected e, s).

Definition bind {S A B} (m : Prog S A) (k : A -> Prog S B) : Prog S B :=
  fun s =>
    match m s with
    | (Resolved v, s') => k v s'
    | (Rejected e, s') => (Rejected e, s')
    end.

(** [try { body } catch (error) { handler }] *)
Definition try_catch {S A} (body : Prog S A) (handler : JsError -> Prog S A)
  : Prog S A :=
  fun s =>
    match body s with
    | (Resolved v, s') => (Resolved v, s')
    | (Rejected e, s') => handler e s'
    end.

(** [try { body } catch (error) { handler } finally { final }], where
    [final] does not throw. *)
Definition try_catch_finally {S A} (body : Prog S A)
    (handler : JsError -> Prog S A) (final : S -> S) : Prog S A :=
  fun s => let '(r, s') := try_catch body handler s in (r, final s').

(** An effect that cannot fail. *)
Definition effect {S} (f : S -> S) : Prog S unit := fun s => (Resolved tt, f s).

Notation "'let!' x := m 'in' k" := (bind m (fun x => k))
  (at level 10, x name, k at level 200).
Notation "m ;; k" := (bind m (fun _ => k))
  (at level 100, right associativity).

(** ** services/AuthService (interface) *)
Module AuthService.

(** Modelled from the spec: the [User] type is declared in
    [services/AuthService], which is not part of the sources at hand.  The
    spec describes it as "identifier, account type (business or ordinary),
    profile fields"; [BarService] reads the identifier as [_id]. *)
Inductive AccountType : Type := business | ordinary.

Record User : Type := mkUser {
  _id : string;
  accountType : AccountType;
  profile : list (string * string)
}.

(** Modelled from the spec: [AuthResponse] and [LoginData] are declared in
    [services/AuthService] too.  The fields are the ones [AuthContext]
    reads: [response.success], [response.user], [response.token],
    [response.message] and [credentials.email]. *)
Record AuthResponse : Type := mkAuthResponse {
  success : bool;
  user : option User;
  token : option string;
  message : option string
}.

Record LoginData : Type := mkLoginData {
  email : string;
  password : string
}.

(** How the [authService] singleton answers: each method call settles to a
    value or throws.  The service is outside the sources at hand, so the
    operations below are stated for every such behaviour. *)
Record Behaviour : Type := mkBehaviour {
  hasToken : Settled bool;
  validateToken : Settled AuthResponse;
  login : LoginData -> Settled AuthResponse;
  logout : Settled unit;
  getCurrentUser : option User
}.

End AuthService.

(** ** AuthContext.tsx *)
Module AuthContext.

Import AuthService.

(** *** Token store *)

(** [window.localStorage].  [setItem] is the one storage method that can
    throw on a working store (quota exceeded); [setItem_throws] says whether
    it does. *)
Record Storage : Type := mkStorage {
  items : gmap string string;
  setItem_throws : bool
}.

(** The mutable environment of the module: [localStorage] ([None] when
    [typeof Storage === 'undefined' || !window.localStorage]) and the
    module-level variable [globalCurrentUser]. *)
Record World : Type := mkWorld {
  localStorage : option Storage;
  globalCurrentUser : option User
}.

Definition TOKEN_STORAGE_KEY : string := "auth_token".

Definition setItem (k v : string) (st : Storage) : Storage :=
  {| items := <[k := v]> (items st); setItem_throws := setItem_throws st |}.

Definition removeItem (k : string) (st : Storage) : Storage :=
  {| items := delete k (items st); setItem_throws := setItem_throws st |}.

Definition getItem (k : string) (st : Storage) : option string :=
  items st !! k.

Definition saveToken (token : string) (w : World) : bool * World :=
  match localStorage w with
  | None => (false, w)
  | Some st =>
      if setItem_throws st then (false, w)
      else (true, {| localStorage := Some (setItem TOKEN_STORAGE_KEY token st);
                     globalCurrentUser := globalCurrentUser w |})
  end.

Definition getToken (w : World) : option string :=
  match localStorage w with
  | None => None
  | Some st => getItem TOKEN_STORAGE_KEY st
  end.

Definition removeToken (w : World) : bool * World :=
  match localStorage w with
  | None => (false, w)
  | Some st =>
      (true, {| localStorage := Some (removeItem TOKEN_STORAGE_KEY st);
                globalCurrentUser := globalCurrentUser w |})
  end.

Definition set_globalCurrentUser (u : option User) (w : World) : World :=
  {| localStorage := localStorage w; globalCurrentUser := u |}.

(** *** Session state and reducer events *)

Record AuthState : Type := mkAuthState {
  isAuthenticated : bool;
  isLoading : bool;
  user : option User;
  error : option string
}.

Definition initialState : AuthState :=
  {| isAuthenticated := false; isLoading := true;
     user := None; error := None |}.

(** The [case] labels of the reducer's [switch]. *)
Definition known_action_types : list string :=
  [ "AUTH_START"; "AUTH_SUCCESS"; "AUTH_FAILURE"; "AUTH_LOGOUT";
    "AUTH_COMPLETE_WITHOUT_USER"; "UPDATE_USER"; "CLEAR_ERROR" ].

Definition is_known_action_type (ty : string) : bool :=
  bool_decide (ty ∈ known_action_types).

(** The union [AuthAction], plus what the [default] branch of the reducer
    receives: an object whose [type] is none of the seven labels. *)
Inductive AuthAction : Type :=
  | AUTH_START
  | AUTH_SUCCESS (payload_user : User) (payload_token : option string)
  | AUTH_FAILURE (payload_error : string)
  | AUTH_LOGOUT
  | UPDATE_USER (payload_user : User)
  | CLEAR_ERROR
  | AUTH_COMPLETE_WITHOUT_USER
  | UNKNOWN_ACTION (type : string) (_ : is_known_action_type type = false).

Definition action_type (action : AuthAction) : string :=
  match action with
  | AUTH_START => "AUTH_START"
  | AUTH_SUCCESS _ _ => "AUTH_SUCCESS"
  | AUTH_FAILURE _ => "AUTH_FAILURE"
  | AUTH_LOGOUT => "AUTH_LOGOUT"
  | UPDATE_USER _ => "UPDATE_USER"
  | CLEAR_ERROR => "CLEAR_ERROR"
  | AUTH_COMPLETE_WITHOUT_USER => "AUTH_COMPLETE_WITHOUT_USER"
  | UNKNOWN_ACTION ty _ => ty
  end.

(** [authReducer]: the next state, and the world after the side effects of
    the branch taken. *)
Definition authReducer (state : AuthState) (action : AuthAction) (w : World)
  : AuthState * World :=
  match action with
  | AUTH_START =>
      ({| isAuthenticated := isAuthenticated state;
          isLoading := true;
          user := user state;
          error := None |}, w)
  | AUTH_SUCCESS payload_user payload_token =>
      let w1 := set_globalCurrentUser (Some payload_user) w in
      let w2 := match payload_token with
                | Some (String c s) => snd (saveToken (String c s) w1)
                | _ => w1
                end in
      ({| isAuthenticated := true;
          isLoading := false;
          user := Some payload_user;
          error := None |}, w2)
  | AUTH_FAILURE payload_error =>
      let w1 := set_globalCurrentUser None w in
      let w2 := snd (removeToken w1) in
      ({| isAuthenticated := false;
          isLoading := false;
          user := None;
          error := Some payload_error |}, w2)
  | AUTH_LOGOUT =>
      let w1 := set_globalCurrentUser None w in
      let w2 := snd (removeToken w1) in
      ({| isAuthenticated := false;
          isLoading := false;
          user := None;
          error := None |}, w2)
  | AUTH_COMPLETE_WITHOUT_USER =>
      let w1 := set_globalCurrentUser None w in
      ({| isAuthenticated := false;
          isLoading := false;
          user := None;
          error := None |}, w1)
  | UPDATE_USER payload_user =>
      let w1 := set_globalCurrentUser (Some payload_user) w in
      ({| isAuthenticated := isAuthenticated state;
          isLoading := isLoading state;
          user := Some payload_user;
          error := None |}, w1)
  | CLEAR_ERROR =>
      ({| isAuthenticated := isAuthenticated state;
          isLoading := isLoading state;
          user := user state;
          error := None |}, w)
  | UNKNOWN_ACTION _ _ => (state, w)
  end.

(** The reducer applied to a sequence of events, oldest first. *)
Fixpoint reduce_all (events : list AuthAction) (state : AuthState) (w : World)
  : AuthState * World :=
  match events with
  | [] => (state, w)
  | action :: rest =>
      let '(state', w') := authReducer state action w in
      reduce_all rest state' w'
  end.

(** *** AuthProvider

    The provider holds the reducer state; [dispatch] runs the reducer on it.
    [events] records, in order, the calls made to [authService] and the
    actions dispatched. *)

Inductive ServiceCall : Type :=
  | call_hasToken
  | call_validateToken
  | call_login (credentials : LoginData)
  | call_logout.

Inductive Event : Type :=
  | Called (c : ServiceCall)
  | Dispatched (action : AuthAction).

Record Provider : Type := mkProvider {
  state : AuthState;
  world : World;
  events : list Event
}.

Definition dispatch (action : AuthAction) : Prog Provider unit :=
  effect (fun p =>
    let '(state', w') := authReducer (state p) action (world p) in
    {| state := state'; world := w'; events := events p ++ [Dispatched action] |}).

(** [await authService.method(...)]: the call is recorded and settles the
    way the service answers. *)
Definition await_service {A} (c : ServiceCall) (answer : Settled A)
  : Prog Provider A :=
  fun p => (answer, {| state := state p; world := world p;
                       events := events p ++ [Called c] |}).

(** ['Token inválido o expirado'] and ['Error al verificar autenticación'],
    with the accented letters as single code units. *)
Definition MSG_TOKEN_INVALID : string :=
  "Token inv" ++ String "225"%char "lido o expirado".

Definition MSG_CHECK_FAILED : string :=
  "Error al verificar autenticaci" ++ String "243"%char "n".

Definition checkExistingAuth (authService : Behaviour) : Prog Provider unit :=
  try_catch
    (dispatch AUTH_START ;;
     let! hasToken := await_service call_hasToken (hasToken authService) in
     if negb hasToken then
       dispatch AUTH_COMPLETE_WITHOUT_USER
     else
       let! response :=
         await_service call_validateToken (validateToken authService) in
       match success response, AuthService.user response with
       | true, Some response_user =>
           dispatch (AUTH_SUCCESS response_user None)
       | _, _ =>
           dispatch (AUTH_FAILURE (or_else (message response) MSG_TOKEN_INVALID))
       end)
    (fun error => dispatch (AUTH_FAILURE MSG_CHECK_FAILED)).

Definition login (authService : Behaviour) (credentials : LoginData)
  : Prog Provider AuthResponse :=
  try_catch
    (dispatch AUTH_START ;;
     let! response :=
       await_service (call_login credentials)
                     (AuthService.login authService credentials) in
     match success response, AuthService.user response with
     | true, Some response_user =>
         dispatch (AUTH_SUCCESS response_user (token response))
     | _, _ =>
         dispatch (AUTH_FAILURE (or_else (message response) "Error en el login"))
     end ;;
     ret response)
    (fun error =>
       let errorMessage := "Error durante el login" in
       dispatch (AUTH_FAILURE errorMessage) ;;
       ret {| success := false; AuthService.user := None; token := None;
              message := Some errorMessage |}).

Definition logout (authService : Behaviour) : Prog Provider unit :=
  try_catch
    (await_service call_logout (AuthService.logout authService) ;;
     dispatch AUTH_LOGOUT)
    (fun error => dispatch AUTH_LOGOUT).

End AuthContext.

(** ** BarService.tsx *)
Module BarService.

Import AuthService.

(** A JSON value, as found in [response.data]. *)
#[local] Unset Elimination Schemes.
Inductive JsValue : Type :=
  | JsUndefined
  | JsNull
  | JsBool (b : bool)
  | JsNumber (n : float)
  | JsString (s : string)
  | JsArray (elements : list JsValue)
  | JsObject (fields : list (string * JsValue)).
#[local] Set Elimination Schemes.

Fixpoint assoc (k : string) (fields : list (string * JsValue)) : option JsValue :=
  match fields with
  | [] => None
  | (k', v) :: rest => if String.eqb k k' then Some v else assoc k rest
  end.

(** [v.k] for a key [k] that is not a built-in property: a [TypeError] on
    [undefined] and [null], the field of an object, [undefined] elsewhere. *)
Definition get_property {S} (v : JsValue) (k : string) : Prog S JsValue :=
  match v with
  | JsUndefined | JsNull =>
      throw (TypeError ("Cannot read properties of undefined (reading '" ++ k ++ "')"))
  | JsObject fields => ret (default JsUndefined (assoc k fields))
  | _ => ret JsUndefined
  end.

Inductive HttpMethod : Type := GET | POST | PUT | DELETE.

Record ReviewData : Type := mkReviewData {
  rating : nat;
  comment : string;
  photos : option (list string)
}.

(** The argument of [updateReview]: every field is optional. *)
Record ReviewUpdate : Type := mkReviewUpdate {
  new_rating : option nat;
  new_comment : option string;
  new_photos : option (list string)
}.

Inductive RequestBody : Type :=
  | body_review (reviewData : ReviewData) (userId : string)
  | body_update (reviewData : ReviewUpdate).

Record HttpRequest : Type := mkHttpRequest {
  method : HttpMethod;
  url : string;
  body : option RequestBody
}.

Record AxiosResponse : Type := mkAxiosResponse {
  status : nat;
  data : JsValue
}.

(** What the service runs against: the [authService] singleton, the axios
    instance [this.api] (how each request settles), and the helper
    [HandleLoginError] of [helpers/ErrorHandler], which is outside the
    sources at hand: [handler_throws] says, for each error, whether the
    helper returns or throws.  The request interceptor, which only adds a
    header, is left out. *)
Record Env : Type := mkEnv {
  authService : Behaviour;
  api : HttpRequest -> Settled AxiosResponse;
  handler_throws : JsError -> option JsError
}.

(** What a method call leaves behind, in order. *)
Inductive Effect : Type :=
  | Http (request : HttpRequest)
  | Handled (error : JsError).

Definition Trace : Type := list Effect.

Definition http_requests (t : Trace) : list HttpRequest :=
  omap (fun e => match e with Http r => Some r | Handled _ => None end) t.

Definition send (env : Env) (request : HttpRequest) : Prog Trace AxiosResponse :=
  fun t => (api env request, (t ++ [Http request])%list).

Definition HandleLoginError (env : Env) (error : JsError) : Prog Trace unit :=
  fun t =>
    (match handler_throws env error with
     | None => Resolved tt
     | Some thrown => Rejected thrown
     end, (t ++ [Handled error])%list).

(** [authService.getCurrentUser()?._id] *)
Definition current_user_id (env : Env) : option string :=
  _id <$> getCurrentUser (authService env).

(** [error.response?.data?.message] *)
Definition body_message (error : JsError) : option string :=
  match error with
  | AxiosError _ (Some response) =>
      match response_data response with
      | Some d => data_message d
      | None => None
      end
  | _ => None
  end.

(** The [catch] block shared by [createReview], [updateReview] and
    [deleteReview]. *)
Definition normalize_or_handle {A} (env : Env) (error : JsError)
  : Prog Trace A :=
  if isAxiosError error then
    let message := or_else (body_message error) (error_message error) in
    throw (Error message)
  else
    HandleLoginError env error ;; throw error.

Definition NOT_AUTHENTICATED : JsError := Error "User not authenticated".

Definition getUserReviewCount (env : Env) (userId : option string)
  : Prog Trace AxiosResponse :=
  try_catch
    (let targetUserId :=
       if truthy userId then userId else current_user_id env in
     match targetUserId with
     | Some (String _ _ as targetUserId) =>
         send env {| method := GET;
                     url := "/users/" ++ targetUserId ++ "/reviews/count";
                     body := None |}
     | _ => throw NOT_AUTHENTICATED
     end)
    (fun error => HandleLoginError env error ;; throw error).

Definition getUserReviews (env : Env) (userId : option string)
  : Prog Trace AxiosResponse :=
  try_catch
    (let targetUserId :=
       if truthy userId then userId else current_user_id env in
     match targetUserId with
     | Some (String _ _ as targetUserId) =>
         send env {| method := GET;
                     url := "/users/" ++ targetUserId ++ "/reviews";
                     body := None |}
     | _ => throw NOT_AUTHENTICATED
     end)
    (fun error => HandleLoginError env error ;; throw error).

Definition createReview (env : Env) (barId : string) (reviewData : ReviewData)
  : Prog Trace AxiosResponse :=
  match current_user_id env with
  | Some (String _ _ as userId) =>
      try_catch
        (let reviewDataWithUser := body_review reviewData userId in
         let! response :=
           send env {| method := POST;
                       url := "/bars/" ++ barId ++ "/reviews";
                       body := Some reviewDataWithUser |} in
         ret response)
        (normalize_or_handle env)
  | _ => throw NOT_AUTHENTICATED
  end.

Definition updateReview (env : Env) (reviewId : string)
    (reviewData : ReviewUpdate) : Prog Trace AxiosResponse :=
  match current_user_id env with
  | Some (String _ _ as userId) =>
      try_catch
        (let! response :=
           send env {| method := PUT;
                       url := "/users/" ++ userId ++ "/reviews/" ++ reviewId;
                       body := Some (body_update reviewData) |} in
         ret response)
        (normalize_or_handle env)
  | _ => throw NOT_AUTHENTICATED
  end.

Definition deleteReview (env : Env) (reviewId : string)
  : Prog Trace AxiosResponse :=
  match current_user_id env with
  | Some (String _ _ as userId) =>
      try_catch
        (let! response :=
           send env {| method := DELETE;
                       url := "/users/" ++ userId ++ "/reviews/" ++ reviewId;
                       body := None |} in
         ret response)
        (normalize_or_handle env)
  | _ => throw NOT_AUTHENTICATED
  end.

Definition NO_REVIEW : JsValue := JsObject [("hasReviewed", JsBool false)].

Definition checkUserReview (env : Env) (barId : string) : Prog Trace JsValue :=
  match current_user_id env with
  | Some (String _ _ as userId) =>
      try_catch
        (let! response :=
           send env {| method := GET;
                       url := "/users/" ++ userId ++ "/reviews/" ++ barId ++ "/check";
                       body := None |} in
         ret (data response))
        (fun error => ret NO_REVIEW)
  | _ => ret NO_REVIEW
  end.

Definition addBarToFavorites (env : Env) (barId : string)
  : Prog Trace AxiosResponse :=
  match current_user_id env with
  | Some (String _ _ as userId) =>
      try_catch
        (send env {| method := POST;
                     url := "/users/" ++ userId ++ "/favorites/" ++ barId;
                     body := None |})
        (fun error =>
           if isAxiosError error then
             let message := or_else (body_message error) (error_message error) in
             throw (Error message)
           else throw error)
  | _ => throw NOT_AUTHENTICATED
  end.

Definition removeBarFromFavorites (env : Env) (barId : string)
  : Prog Trace AxiosResponse :=
  match current_user_id env with
  | Some (String _ _ as userId) =>
      send env {| method := DELETE;
                  url := "/users/" ++ userId ++ "/favorites/" ++ barId;
                  body := None |}
  | _ => throw NOT_AUTHENTICATED
  end.

Definition isBarFavorite (env : Env) (barId : string) : Prog Trace JsValue :=
  match current_user_id env with
  | Some (String _ _ as userId) =>
      try_catch
        (let! response :=
           send env {| method := GET;
                       url := "/users/" ++ userId ++ "/favorites/" ++ barId ++ "/check";
                       body := None |} in
         get_property (data response) "isFavorite")
        (fun error => ret (JsBool false))
  | _ => ret (JsBool false)
  end.

End BarService.

(** ** ReviewModal *)
Module ReviewModal.

Record ExistingReview : Type := mkExistingReview {
  _id : string;
  rating : nat;
  comment : string
}.

Record Props : Type := mkProps {
  barId : string;
  barName : string;
  existingReview : option ExistingReview
}.

(** What the user sees and what the parent is told, in order. *)
Inductive UiEvent : Type :=
  | Alert (title message : string)
  | setLoading (value : bool)
  | setRating (value : nat)
  | setComment (value : string)
  | onReviewSubmitted
  | onClose
  | call_updateReview (reviewId : string) (reviewData : BarService.ReviewUpdate)
  | call_createReview (barId : string) (reviewData : BarService.ReviewData).

(** The modal while a handler runs: the [useState] values the handler
    closes over, the UI events so far and the network trace. *)
Record Modal : Type := mkModal {
  rating_state : nat;
  comment_state : string;
  ui : list UiEvent;
  network : BarService.Trace
}.

Definition emit (e : UiEvent) : Prog Modal unit :=
  effect (fun m => {| rating_state := rating_state m;
                      comment_state := comment_state m;
                      ui := ui m ++ [e];
                      network := network m |}).

(** A [BarService] call made from the modal. *)
Definition service {A} (c : Prog BarService.Trace A) : Prog Modal A :=
  fun m =>
    let '(r, t) := c (network m) in
    (r, {| rating_state := rating_state m;
           comment_state := comment_state m;
           ui := ui m;
           network := t |}).

Definition handleSubmit (env : BarService.Env) (props : Props)
  : Prog Modal unit :=
  fun m =>
    let rating := rating_state m in
    let comment := comment_state m in
    if (rating =? 0)%nat then
      emit (Alert "Error" "Please select a rating") m
    else if (String.length (trim comment) <? 10)%nat then
      emit (Alert "Error" "Please write at least 10 characters in your review") m
    else
      (emit (setLoading true) ;;
       try_catch_finally
         (match existingReview props with
          | Some existing =>
              let reviewData :=
                {| BarService.new_rating := Some rating;
                   BarService.new_comment := Some (trim comment);
                   BarService.new_photos := None |} in
              emit (call_updateReview (_id existing) reviewData) ;;
              service (BarService.updateReview env (_id existing) reviewData) ;;
              emit (Alert "Success" "Your review has been updated!")
          | None =>
              let reviewData :=
                {| BarService.rating := rating;
                   BarService.comment := trim comment;
                   BarService.photos := None |} in
              emit (call_createReview (barId props) reviewData) ;;
              service (BarService.createReview env (barId props) reviewData) ;;
              emit (Alert "Success" "Thank you for your review!")
          end ;;
          emit (setRating 0) ;;
          emit (setComment "") ;;
          emit onReviewSubmitted ;;
          emit onClose)
         (* every [JsError] is [instanceof Error], so the alert shows
            [error.message] *)
         (fun error => emit (Alert "Error" (error_message error)))
         (fun m' => {| rating_state := rating_state m';
                       comment_state := comment_state m';
                       ui := ui m' ++ [setLoading false];
                       network := network m' |})) m.

Definition is_service_call (e : UiEvent) : bool :=
  match e with
  | call_updateReview _ _ | call_createReview _ _ => true
  | _ => false
  end.

(** The submission was turned down before any service call. *)
Definition rejected_client_side (m : Modal) : Prop :=
  BarService.http_requests (network m) = []
  ∧ ∀ e, e ∈ ui m → is_service_call e = false.

(** The submission went through to the service. *)
Definition accepted (m : Modal) : Prop :=
  ∃ e, e ∈ ui m ∧ is_service_call e = true.

(** The modal at the moment the submit button is pressed. *)
Definition submission (rating : nat) (comment : string) : Modal :=
  {| rating_state := rating; comment_state := comment; ui := []; network := [] |}.

(** The service call a submission that passes makes. *)
Definition expected_call (props : Props) (rating : nat) (comment : string)
  : UiEvent :=
  match existingReview props with
  | Some existing =>
      call_updateReview (_id existing)
        {| BarService.new_rating := Some rating;
           BarService.new_comment := Some (trim comment);
           BarService.new_photos := None |}
  | None =>
      call_createReview (barId props)
        {| BarService.rating := rating;
           BarService.comment := trim comment;
           BarService.photos := None |}
  end.

Definition new_review : Props :=
  {| barId := "bar-1"; barName := "La Cantina"; existingReview := None |}.

(** Ten characters, two of them trailing blanks. *)
Definition padded_comment : string := "nice bar  ".

End ReviewModal.

(** ** AddMenuItemScreen *)
Module AddMenuItemScreen.

Inductive ItemType : Type := alcohol | comida | bebida.

Record MenuItemForm : Type := mkMenuItemForm {
  name : string;
  description : string;
  price : string;
  photo : string;
  type : ItemType;
  alcoholPercentage : string;
  volume : string
}.

Definition isNaN (x : float) : bool := PrimFloat.is_nan x.

Section Validation.

(** The global [parseFloat] and whether [new URL(url)] returns normally:
    built-ins of the runtime, so the validation is stated for every
    behaviour of them.  JavaScript numbers are binary64 floats. *)
Variable parseFloat : string -> float.
Variable URL_parses : string -> bool.

Definition isValidUrl (url : string) : bool := URL_parses url.

(** [newErrors], keyed by field name. *)
Definition validation_errors (form : MenuItemForm) : gmap string string :=
  let newErrors : gmap string string := ∅ in
  let newErrors :=
    if is_empty (trim (name form))
    then <["name" := "Name is required"]> newErrors
    else newErrors in
  let newErrors :=
    if is_empty (trim (description form))
    then <["description" := "Description is required"]> newErrors
    else newErrors in
  let newErrors :=
    if is_empty (trim (price form))
    then <["price" := "Price is required"]> newErrors
    else if isNaN (parseFloat (price form)) || (parseFloat (price form) <? 0)%float
    then <["price" := "Price must be a positive number"]> newErrors
    else newErrors in
  let newErrors :=
    match type form with
    | alcohol =>
        if is_empty (trim (alcoholPercentage form))
        then <["alcoholPercentage" :=
                 "Alcohol percentage is required for alcoholic items"]> newErrors
        else
          let alcoholPercent := parseFloat (alcoholPercentage form) in
          if isNaN alcoholPercent || (alcoholPercent <=? 0)%float
             || (100 <? alcoholPercent)%float
          then <["alcoholPercentage" :=
                   "Alcohol percentage must be between 0 and 100"]> newErrors
          else newErrors
    | _ => newErrors
    end in
  let newErrors :=
    if negb (is_empty (trim (volume form)))
       && (isNaN (parseFloat (volume form)) || (parseFloat (volume form) <? 0)%float)
    then <["volume" := "Volume must be a positive number"]> newErrors
    else newErrors in
  let newErrors :=
    if negb (is_empty (photo form)) && negb (isValidUrl (photo form))
    then <["photo" := "Please enter a valid URL"]> newErrors
    else newErrors in
  newErrors.

(** [validateForm]: the errors handed to [setErrors] and the result
    [Object.keys(newErrors).length === 0]. *)
Definition validateForm (form : MenuItemForm) : gmap string string * bool :=
  let newErrors := validation_errors form in
  (newErrors, (size newErrors =? 0)%nat).

(** The checks on the fields other than the alcohol percentage. *)
Definition other_fields_valid (form : MenuItemForm) : bool :=
  negb (is_empty (trim (name form)))
  && negb (is_empty (trim (description form)))
  && (negb (is_empty (trim (price form)))
      && negb (isNaN (parseFloat (price form)))
      && negb (parseFloat (price form) <? 0)%float)
  && (is_empty (trim (volume form))
      || negb (isNaN (parseFloat (volume form)))
         && negb (parseFloat (volume form) <? 0)%float)
  && (is_empty (photo form) || isValidUrl (photo form)).

(** The parsed value lies in (0, 100]. *)
Definition in_range (x : float) : bool := (0 <? x)%float && (x <=? 100)%float.

End Validation.

Definition with_alcoholPercentage (form : MenuItemForm) (text : string)
  : MenuItemForm :=
  {| name := name form; description := description form; price := price form;
     photo := photo form; type := type form; alcoholPercentage := text;
     volume := volume form |}.

(** Sample forms. *)
Definition tequila : MenuItemForm :=
  {| name := "Tequila blanco"; description := "Agave azul, 700 ml";
     price := "120"; photo := ""; type := alcohol;
     alcoholPercentage := "38"; volume := "700" |}.

Definition tacos : MenuItemForm :=
  {| name := "Tacos al pastor"; description := "Orden de cuatro";
     price := "85.50"; photo := "https://example.org/tacos.png";
     type := comida; alcoholPercentage := "no aplica"; volume := "" |}.

End AddMenuItemScreen.

(** * Vocabulary of the specification, and sample values *)
Module Spec.

Import AuthService AuthContext.

(** The events that settle a session; [AUTH_START], [UPDATE_USER],
    [CLEAR_ERROR] and unknown events do not. *)
Definition is_settling (action : AuthAction) : bool :=
  match action with
  | AUTH_SUCCESS _ _ | AUTH_FAILURE _ | AUTH_LOGOUT
  | AUTH_COMPLETE_WITHOUT_USER => true
  | _ => false
  end.

(** The most recent settling event of a history, oldest event first. *)
Fixpoint last_settling (events : list AuthAction) : option AuthAction :=
  match events with
  | [] => None
  | action :: rest =>
      match last_settling rest with
      | Some later => Some later
      | None => if is_settling action then Some action else None
      end
  end.

(** The session invariant as the data model words it: an authenticated
    session has a user, and a loading session is neither authenticated nor
    in error. *)
Definition session_invariant_claimed (s : AuthState) : Prop :=
  (isAuthenticated s = true → user s ≠ None) ∧
  (isLoading s = true → isAuthenticated s = false ∧ error s = None).

(** The part of it that the reducer maintains. *)
Definition session_invariant (s : AuthState) : Prop :=
  (isAuthenticated s = true → user s ≠ None) ∧
  (isLoading s = true → error s = None).

(** The unauthenticated, settled session. *)
Definition unauthenticated : AuthState :=
  {| isAuthenticated := false; isLoading := false; user := None; error := None |}.

Definition ana : User :=
  {| AuthService._id := "u-17"; accountType := ordinary;
     profile := [("name", "Ana")] |}.

(** A browser whose store holds a token from an earlier session. *)
Definition browser : World :=
  {| localStorage :=
       Some {| items := {[ TOKEN_STORAGE_KEY := "stale-token" ]};
               setItem_throws := false |};
     globalCurrentUser := None |}.

Definition refresh_action : AuthAction :=
  UNKNOWN_ACTION "AUTH_REFRESH" eq_refl.

Definition sample_history : list AuthAction :=
  [ AUTH_START; AUTH_FAILURE "Credenciales incorrectas"; AUTH_START;
    AUTH_SUCCESS ana (Some "jwt-1"); UPDATE_USER ana; CLEAR_ERROR ].

(** A second login attempt made from an authenticated session. *)
Definition relogin_history : list AuthAction :=
  [ AUTH_START; AUTH_SUCCESS ana (Some "jwt-1"); AUTH_START ].

(** The test [response.success && response.user] of the provider. *)
Definition carries_user (response : AuthResponse) : bool :=
  match success response, AuthService.user response with
  | true, Some _ => true
  | _, _ => false
  end.

(** A remote call that did not hand back a user: it threw, or its response
    fails the test above. *)
Definition failed (answer : Settled AuthResponse) : Prop :=
  match answer with
  | Rejected _ => True
  | Resolved response => carries_user response = false
  end.

(** What the [AUTH_FAILURE] and [AUTH_LOGOUT] branches leave of the world. *)
Definition cleared (w : World) : World :=
  (removeToken (set_globalCurrentUser None w)).2.

(** The session after an [AUTH_FAILURE] carrying [message]. *)
Definition failed_with (message : string) : AuthState :=
  {| isAuthenticated := false; isLoading := false; user := None;
     error := Some message |}.

(** The session after an [AUTH_SUCCESS] carrying [u]. *)
Definition authenticated_as (u : User) : AuthState :=
  {| isAuthenticated := true; isLoading := false; user := Some u;
     error := None |}.

Definition mounted (w : World) : Provider :=
  {| state := initialState; world := w; events := [] |}.

(** A session logged in as [ana] on [browser]. *)
Definition logged_in : Provider :=
  {| state := {| isAuthenticated := true; isLoading := false;
                 user := Some ana; error := None |};
     world := {| localStorage := localStorage browser;
                 globalCurrentUser := Some ana |};
     events := [] |}.

Definition credentials_ana : LoginData :=
  {| email := "ana@example.org"; password := "secret" |}.

(** A server that knows [ana], has no token on record and rejects the one
    it is asked to validate. *)
Definition server_up : Behaviour :=
  {| hasToken := Resolved false;
     validateToken :=
       Resolved {| success := false; AuthService.user := None; token := None;
                   message := Some "Token expirado" |};
     AuthService.login := fun credentials =>
       if String.eqb (email credentials) "ana@example.org"
       then Resolved {| success := true; AuthService.user := Some ana;
                        token := Some "jwt-2"; message := None |}
       else Resolved {| success := false; AuthService.user := None;
                        token := None; message := Some "Credenciales incorrectas" |};
     AuthService.logout := Resolved tt;
     getCurrentUser := Some ana |}.

(** A client with a token on record that the server turns down. *)
Definition server_stale : Behaviour :=
  {| hasToken := Resolved true;
     validateToken := validateToken server_up;
     AuthService.login := AuthService.login server_up;
     AuthService.logout := Resolved tt;
     getCurrentUser := None |}.

(** The same client with a token on record and the network down: every
    remote call throws. *)
Definition server_down : Behaviour :=
  {| hasToken := Resolved true;
     validateToken := Rejected (AxiosError "Network Error" None);
     AuthService.login := fun _ => Rejected (AxiosError "Network Error" None);
     AuthService.logout := Rejected (AxiosError "Network Error" None);
     getCurrentUser := None |}.

End Spec.

(** ** Vocabulary for the bar service and the review modal *)
Module BarSpec.

Import AuthService BarService.

(** The calls of the methods that throw when no user is logged in. *)
Inductive GuardedCall : Type :=
  | to_createReview (barId : string) (reviewData : ReviewData)
  | to_updateReview (reviewId : string) (reviewData : ReviewUpdate)
  | to_deleteReview (reviewId : string)
  | to_addBarToFavorites (barId : string)
  | to_removeBarFromFavorites (barId : string).

Definition run (env : Env) (call : GuardedCall) : Prog Trace AxiosResponse :=
  match call with
  | to_createReview barId reviewData => createReview env barId reviewData
  | to_updateReview reviewId reviewData => updateReview env reviewId reviewData
  | to_deleteReview reviewId => deleteReview env reviewId
  | to_addBarToFavorites barId => addBarToFavorites env barId
  | to_removeBarFromFavorites barId => removeBarFromFavorites env barId
  end.

(** The request each call sends on behalf of user [userId]. *)
Definition request_of (userId : string) (call : GuardedCall) : HttpRequest :=
  match call with
  | to_createReview barId reviewData =>
      {| method := POST; url := "/bars/" ++ barId ++ "/reviews";
         body := Some (body_review reviewData userId) |}
  | to_updateReview reviewId reviewData =>
      {| method := PUT; url := "/users/" ++ userId ++ "/reviews/" ++ reviewId;
         body := Some (body_update reviewData) |}
  | to_deleteReview reviewId =>
      {| method := DELETE; url := "/users/" ++ userId ++ "/reviews/" ++ reviewId;
         body := None |}
  | to_addBarToFavorites barId =>
      {| method := POST; url := "/users/" ++ userId ++ "/favorites/" ++ barId;
         body := None |}
  | to_removeBarFromFavorites barId =>
      {| method := DELETE; url := "/users/" ++ userId ++ "/favorites/" ++ barId;
         body := None |}
  end.

(** The service call behind [ReviewModal.expected_call]. *)
Definition expected_service_call (props : ReviewModal.Props) (rating : nat)
    (comment : string) : GuardedCall :=
  match ReviewModal.existingReview props with
  | Some existing =>
      to_updateReview (ReviewModal._id existing)
        {| new_rating := Some rating;
           new_comment := Some (trim comment);
           new_photos := None |}
  | None =>
      to_createReview (ReviewModal.barId props)
        {| rating := rating; comment := trim comment; photos := None |}
  end.

(** The calls whose [catch] block rewrites an axios error. *)
Definition normalises (call : GuardedCall) : bool :=
  match call with
  | to_removeBarFromFavorites _ => false
  | _ => true
  end.

Definition check_review_request (userId barId : string) : HttpRequest :=
  {| method := GET;
     url := "/users/" ++ userId ++ "/reviews/" ++ barId ++ "/check";
     body := None |}.

Definition check_favorite_request (userId barId : string) : HttpRequest :=
  {| method := GET;
     url := "/users/" ++ userId ++ "/favorites/" ++ barId ++ "/check";
     body := None |}.

Definition NOT_FAVORITE : JsValue := JsObject [("isFavorite", JsBool false)].

(** A server that accepts everything, seen by a logged-in user and by a
    visitor. *)
Definition ok_api (request : HttpRequest) : Settled AxiosResponse :=
  Resolved {| status := 200; data := JsObject [] |}.

Definition member_env : Env :=
  {| authService := Spec.server_up; api := ok_api;
     handler_throws := fun _ => None |}.

Definition visitor_env : Env :=
  {| authService := Spec.server_down; api := ok_api;
     handler_throws := fun _ => None |}.

(** A server that turns every request down with a message in the body. *)
Definition refusing_api (request : HttpRequest) : Settled AxiosResponse :=
  Rejected (AxiosError "Request failed with status code 409"
              (Some {| response_status := 409;
                       response_data :=
                         Some {| data_message := Some "Ya existe una rese" |} |})).

Definition refused_env : Env :=
  {| authService := Spec.server_up; api := refusing_api;
     handler_throws := fun _ => None |}.

End BarSpec.

(** ** Stand-ins for the runtime built-ins, to run the validators on
    concrete forms *)
Module Runtime.

Definition digit_value (c : ascii) : option Z :=
  let n := nat_of_ascii c in
  if (48 <=? n)%nat && (n <=? 57)%nat then Some (Z.of_nat (n - 48)) else None.

Fixpoint read_digits (s : string) (acc : Z) (count : nat) : Z * nat * string :=
  match s with
  | EmptyString => (acc, count, s)
  | String c rest =>
      match digit_value c with
      | Some d => read_digits rest (10 * acc + d)%Z (S count)
      | None => (acc, count, s)
      end
  end.

Definition float_of_Z (z : Z) : float := PrimFloat.of_uint63 (Uint63.of_Z z).

(** [parseFloat] on plain decimal numerals: optional white space and sign,
    digits, optional fraction; [NaN] when no digit is found.  It agrees with
    the built-in on numerals of up to 15 significant digits (no exponent, no
    [Infinity]), where a single correctly rounded division gives the
    nearest binary64 number. *)
Definition parseFloat_decimal (s : string) : float :=
  let s := trimStart s in
  let '(negative, s) :=
    match s with
    | String "-" rest => (true, rest)
    | String "+" rest => (false, rest)
    | _ => (false, s)
    end in
  let '(whole, n, rest) := read_digits s 0%Z 0 in
  let '(mantissa, k) :=
    match rest with
    | String "." fraction =>
        let '(m, k, _) := read_digits fraction whole 0 in (m, k)
    | _ => (whole, 0)
    end in
  if (n + k =? 0)%nat then nan
  else
    let x := (float_of_Z mantissa / float_of_Z (10 ^ Z.of_nat k))%float in
    if negative then (- x)%float else x.

(** [new URL(url)] accepts, among others, absolute http(s) URLs; the
    stand-in accepts those only. *)
Definition URL_parses_http (url : string) : bool :=
  String.prefix "http://" url || String.prefix "https://" url.

End Runtime.

(** * The rest of the sources *)

(** ** services/AuthService: the remaining methods (interface) *)
Module AuthRemote.

Import AuthService.

(** Modelled from the spec: [RegisterData], [UpdateProfileData] and
    [ChangePasswordData] are declared in [services/AuthService], which is
    not part of the sources at hand.  The provider reads [userData.email]
    only and passes the values on. *)
Record RegisterData : Type := mkRegisterData {
  email : string;
  password : string;
  fields : list (string * string)
}.

Record UpdateProfileData : Type := mkUpdateProfileData {
  changes : list (string * string)
}.

Record ChangePasswordData : Type := mkChangePasswordData {
  currentPassword : string;
  newPassword : string
}.

(** How [authService] answers the remaining methods. *)
Record Remote : Type := mkRemote {
  register : RegisterData -> Settled AuthResponse;
  updateProfile : UpdateProfileData -> Settled AuthResponse;
  changePassword : ChangePasswordData -> Settled AuthResponse;
  getProfile : Settled AuthResponse
}.

Inductive RemoteCall : Type :=
  | call_register (userData : RegisterData)
  | call_updateProfile (profileData : UpdateProfileData)
  | call_changePassword (passwordData : ChangePasswordData)
  | call_getProfile.

End AuthRemote.

(** ** AuthContext.tsx: the other operations of the provider *)
Module AuthProvider.

Import AuthService AuthContext.
Import AuthRemote(RegisterData, UpdateProfileData, ChangePasswordData, Remote,
                  RemoteCall, call_register, call_updateProfile,
                  call_changePassword, call_getProfile).

(** The provider together with the calls made to the methods above. *)
Record Session : Type := mkSession {
  provider : Provider;
  calls : list RemoteCall
}.

(** [dispatch] of the provider, in a session. *)
Definition send_action (action : AuthAction) : Prog Session unit :=
  fun s =>
    let '(r, p') := dispatch action (provider s) in
    (r, {| provider := p'; calls := calls s |}).

Definition await_remote {A} (c : RemoteCall) (answer : Settled A)
  : Prog Session A :=
  fun s => (answer, {| provider := provider s; calls := calls s ++ [c] |}).

Definition register (authService : Remote) (userData : RegisterData)
  : Prog Session AuthResponse :=
  try_catch
    (send_action AUTH_START ;;
     let! response :=
       await_remote (call_register userData) (AuthRemote.register authService userData) in
     match success response, AuthService.user response with
     | true, Some response_user =>
         send_action (AUTH_SUCCESS response_user (token response))
     | _, _ =>
         send_action
           (AUTH_FAILURE (or_else (message response) "Error en el registro"))
     end ;;
     ret response)
    (fun error =>
       let errorMessage := "Error durante el registro" in
       send_action (AUTH_FAILURE errorMessage) ;;
       ret {| success := false; AuthService.user := None; token := None;
              message := Some errorMessage |}).

Definition updateProfile (authService : Remote)
    (profileData : UpdateProfileData) : Prog Session AuthResponse :=
  try_catch
    (let! response :=
       await_remote (call_updateProfile profileData)
                    (AuthRemote.updateProfile authService profileData) in
     match success response, AuthService.user response with
     | true, Some response_user => send_action (UPDATE_USER response_user)
     | _, _ => ret tt
     end ;;
     ret response)
    (fun error =>
       let errorMessage := "Error al actualizar perfil" in
       ret {| success := false; AuthService.user := None; token := None;
              message := Some errorMessage |}).

(** ['Error al cambiar contraseña'], with the [ñ] as one code unit. *)
Definition MSG_PASSWORD_FAILED : string :=
  "Error al cambiar contrase" ++ String "241"%char "a".

Definition changePassword (authService : Remote)
    (passwordData : ChangePasswordData) : Prog Session AuthResponse :=
  try_catch
    (let! response :=
       await_remote (call_changePassword passwordData)
                    (AuthRemote.changePassword authService passwordData) in
     ret response)
    (fun error =>
       let errorMessage := MSG_PASSWORD_FAILED in
       ret {| success := false; AuthService.user := None; token := None;
              message := Some errorMessage |}).

Definition refreshUser (authService : Remote) : Prog Session unit :=
  try_catch
    (let! response := await_remote call_getProfile (AuthRemote.getProfile authService) in
     match success response, AuthService.user response with
     | true, Some response_user => send_action (UPDATE_USER response_user)
     | _, _ => ret tt
     end)
    (fun error => ret tt).

Definition getCurrentUser (p : Provider) : option User :=
  AuthContext.user (state p).

Definition getCurrentUserGlobal (w : World) : option User :=
  globalCurrentUser w.

(** What one event leaves of the store: it is there or missing as before,
    answers writes as before, and holds the same values under every key
    but the token's. *)
Definition same_but_token (w w' : World) : Prop :=
  match localStorage w, localStorage w' with
  | None, None => True
  | Some st, Some st' =>
      setItem_throws st' = setItem_throws st
      ∧ ∀ k, k ≠ TOKEN_STORAGE_KEY → items st' !! k = items st !! k
  | _, _ => False
  end.

(** A client whose token the server accepts, sending a fresh one back. *)
Definition server_valid : Behaviour :=
  {| hasToken := Resolved true;
     validateToken :=
       Resolved {| success := true; AuthService.user := Some Spec.ana;
                   token := Some "jwt-fresh"; message := None |};
     AuthService.login := AuthService.login Spec.server_up;
     AuthService.logout := Resolved tt;
     AuthService.getCurrentUser := Some Spec.ana |}.

(** A client whose token check throws. *)
Definition server_broken : Behaviour :=
  {| hasToken := Rejected (TypeError "storage");
     validateToken := validateToken Spec.server_up;
     AuthService.login := AuthService.login Spec.server_up;
     AuthService.logout := Resolved tt;
     AuthService.getCurrentUser := None |}.

(** A session that has made no remote call yet. *)
Definition fresh (p : Provider) : Session := {| provider := p; calls := [] |}.

(** The events that are one of the seven the reducer knows. *)
Definition is_known (action : AuthAction) : bool :=
  match action with
  | UNKNOWN_ACTION _ _ => false
  | _ => true
  end.

(** The most recent known event of a history, oldest event first. *)
Fixpoint last_known (events : list AuthAction) : option AuthAction :=
  match events with
  | [] => None
  | action :: rest =>
      match last_known rest with
      | Some later => Some later
      | None => if is_known action then Some action else None
      end
  end.

(** The most recent event that decides [isLoading]: [AUTH_START] or a
    settling event. *)
Fixpoint last_loading_event (events : list AuthAction) : option AuthAction :=
  match events with
  | [] => None
  | action :: rest =>
      match last_loading_event rest with
      | Some later => Some later
      | None =>
          match action with
          | AUTH_START => Some action
          | _ => if Spec.is_settling action then Some action else None
          end
      end
  end.

(** An account service that knows [ana] under a new name and accepts
    every request. *)
Definition ana_renamed : User :=
  {| AuthService._id := "u-17"; accountType := ordinary;
     profile := [("name", "Ana Luisa")] |}.

Definition remote_up : Remote :=
  {| AuthRemote.register := fun userData =>
       Resolved {| success := true; AuthService.user := Some Spec.ana;
                   token := Some "jwt-3"; message := None |};
     AuthRemote.updateProfile := fun _ =>
       Resolved {| success := true; AuthService.user := Some ana_renamed;
                   token := None; message := None |};
     AuthRemote.changePassword := fun _ =>
       Resolved {| success := true; AuthService.user := None;
                   token := None; message := Some "ok" |};
     AuthRemote.getProfile :=
       Resolved {| success := true; AuthService.user := Some ana_renamed;
                   token := None; message := None |} |}.

(** The same service turning every request down. *)
Definition remote_refusing : Remote :=
  {| AuthRemote.register := fun _ =>
       Resolved {| success := false; AuthService.user := None;
                   token := None; message := Some "Correo ya registrado" |};
     AuthRemote.updateProfile := fun _ =>
       Resolved {| success := false; AuthService.user := None;
                   token := None; message := Some "Datos incorrectos" |};
     AuthRemote.changePassword := fun _ => Rejected (AxiosError "Network Error" None);
     AuthRemote.getProfile := Rejected (AxiosError "Network Error" None) |}.

Definition new_account : RegisterData :=
  {| AuthRemote.email := "ana@example.org"; AuthRemote.password := "secret";
     AuthRemote.fields := [("name", "Ana")] |}.

End AuthProvider.

(** ** BusinessProtectedRoute *)
Module AccessGuard.

Import AuthService AuthContext.

(** What the component renders.  The upgrade section of the third view
    names the account type of the user. *)
Inductive View : Type :=
  | VerifyingAccess
  | AccessDenied
  | BusinessRequired (fallbackMessage : string)
                     (upgradeSection : option AccountType)
  | Children.

Record Props : Type := mkProps {
  fallbackMessage : option string;
  showUpgradeOption : option bool
}.

(** ["Esta función está disponible solo para cuentas de negocio"], with
    the accented letters as single code units. *)
Definition DEFAULT_FALLBACK_MESSAGE : string :=
  "Esta funci" ++ String "243"%char "n est"
  ++ String "225"%char " disponible solo para cuentas de negocio".

(** The component, on the [user], [isAuthenticated] and [isLoading] that
    [useAuth] hands it. *)
Definition BusinessProtectedRoute (props : Props) (auth : AuthState) : View :=
  let fallbackMessage := default DEFAULT_FALLBACK_MESSAGE (fallbackMessage props) in
  let showUpgradeOption := default true (showUpgradeOption props) in
  if isLoading auth then VerifyingAccess
  else
    match isAuthenticated auth, user auth with
    | true, Some user =>
        match accountType user with
        | business => Children
        | other =>
            BusinessRequired fallbackMessage
              (if showUpgradeOption then Some other else None)
        end
    | _, _ => AccessDenied
    end.

Definition default_props : Props :=
  {| fallbackMessage := None; showUpgradeOption := None |}.

Definition owner : User :=
  {| AuthService._id := "u-40"; accountType := business;
     profile := [("name", "Bar La Cantina")] |}.

End AccessGuard.

(** ** BarService.tsx: the read-only methods *)
Module BarQueries.

Import AuthService BarService.

(** The body of the methods that only read:
    [try { return await this.api.get(url) }
     catch (error) { HandleLoginError(error); throw error }]. *)
Definition get_or_handle (env : Env) (url : string) : Prog Trace AxiosResponse :=
  try_catch
    (send env {| method := GET; url := url; body := None |})
    (fun error => HandleLoginError env error ;; throw error).

Definition allBars (env : Env) : Prog Trace AxiosResponse :=
  get_or_handle env "/bars".

Definition getBarById (env : Env) (id : string) : Prog Trace AxiosResponse :=
  get_or_handle env ("/bars/" ++ id).

Definition getMenuByBarId (env : Env) (id : string) : Prog Trace AxiosResponse :=
  get_or_handle env ("/bars/" ++ id ++ "/menu").

Definition getMenuItemById (env : Env) (barId itemId : string)
  : Prog Trace JsValue :=
  try_catch
    (let! response :=
       send env {| method := GET;
                   url := "/bars/" ++ barId ++ "/menu/" ++ itemId;
                   body := None |} in
     ret (data response))
    (fun error =>
       match error with
       | AxiosError _ (Some response) =>
           if (response_status response =? 404)%nat
           then throw (Error "Menu item not found")
           else throw error
       | _ => throw error
       end).

Definition getFoodByBarId (env : Env) (id : string) : Prog Trace AxiosResponse :=
  get_or_handle env ("/bars/" ++ id ++ "/food").

Definition getDrinksByBarId (env : Env) (id : string) : Prog Trace AxiosResponse :=
  get_or_handle env ("/bars/" ++ id ++ "/drinks").

Definition getAlcoholByBarId (env : Env) (id : string) : Prog Trace AxiosResponse :=
  get_or_handle env ("/bars/" ++ id ++ "/alcohol").

Definition getEventsByBarId (env : Env) (id : string) : Prog Trace AxiosResponse :=
  get_or_handle env ("/bars/" ++ id ++ "/events").

Definition getReviewsByBarId (env : Env) (id : string) : Prog Trace AxiosResponse :=
  get_or_handle env ("/bars/" ++ id ++ "/reviews").

Definition getBarReviewStats (env : Env) (barId : string)
  : Prog Trace AxiosResponse :=
  get_or_handle env ("/bars/" ++ barId ++ "/reviews/stats").

Definition getAllEvents (env : Env) : Prog Trace AxiosResponse :=
  get_or_handle env "/events".

(** The one read-only method whose [catch] block only logs. *)
Definition getEventById (env : Env) (id : string) : Prog Trace AxiosResponse :=
  try_catch
    (send env {| method := GET; url := "/events/" ++ id; body := None |})
    (fun error => throw error).

Definition getMyProfile (env : Env) : Prog Trace AxiosResponse :=
  get_or_handle env "/users/me".

Definition getFavorites (env : Env) (userId : string) : Prog Trace AxiosResponse :=
  get_or_handle env ("/users/" ++ userId ++ "/favorites").

(** The calls of the methods above that return the response itself. *)
Inductive Query : Type :=
  | q_allBars
  | q_getBarById (id : string)
  | q_getMenuByBarId (id : string)
  | q_getFoodByBarId (id : string)
  | q_getDrinksByBarId (id : string)
  | q_getAlcoholByBarId (id : string)
  | q_getEventsByBarId (id : string)
  | q_getReviewsByBarId (id : string)
  | q_getBarReviewStats (barId : string)
  | q_getAllEvents
  | q_getEventById (id : string)
  | q_getMyProfile
  | q_getFavorites (userId : string).

Definition run_query (env : Env) (q : Query) : Prog Trace AxiosResponse :=
  match q with
  | q_allBars => allBars env
  | q_getBarById id => getBarById env id
  | q_getMenuByBarId id => getMenuByBarId env id
  | q_getFoodByBarId id => getFoodByBarId env id
  | q_getDrinksByBarId id => getDrinksByBarId env id
  | q_getAlcoholByBarId id => getAlcoholByBarId env id
  | q_getEventsByBarId id => getEventsByBarId env id
  | q_getReviewsByBarId id => getReviewsByBarId env id
  | q_getBarReviewStats barId => getBarReviewStats env barId
  | q_getAllEvents => getAllEvents env
  | q_getEventById id => getEventById env id
  | q_getMyProfile => getMyProfile env
  | q_getFavorites userId => getFavorites env userId
  end.

Definition query_url (q : Query) : string :=
  match q with
  | q_allBars => "/bars"
  | q_getBarById id => "/bars/" ++ id
  | q_getMenuByBarId id => "/bars/" ++ id ++ "/menu"
  | q_getFoodByBarId id => "/bars/" ++ id ++ "/food"
  | q_getDrinksByBarId id => "/bars/" ++ id ++ "/drinks"
  | q_getAlcoholByBarId id => "/bars/" ++ id ++ "/alcohol"
  | q_getEventsByBarId id => "/bars/" ++ id ++ "/events"
  | q_getReviewsByBarId id => "/bars/" ++ id ++ "/reviews"
  | q_getBarReviewStats barId => "/bars/" ++ barId ++ "/reviews/stats"
  | q_getAllEvents => "/events"
  | q_getEventById id => "/events/" ++ id
  | q_getMyProfile => "/users/me"
  | q_getFavorites userId => "/users/" ++ userId ++ "/favorites"
  end.

Definition query_request (q : Query) : HttpRequest :=
  {| method := GET; url := query_url q; body := None |}.

(** Every call of the service modelled here, and the trace it leaves. *)
Inductive AnyCall : Type :=
  | a_guarded (call : BarSpec.GuardedCall)
  | a_query (q : Query)
  | a_getMenuItemById (barId itemId : string)
  | a_getUserReviewCount (userId : option string)
  | a_getUserReviews (userId : option string)
  | a_checkUserReview (barId : string)
  | a_isBarFavorite (barId : string).

Definition trace_after (env : Env) (call : AnyCall) (t : Trace) : Trace :=
  match call with
  | a_guarded c => (BarSpec.run env c t).2
  | a_query q => (run_query env q t).2
  | a_getMenuItemById barId itemId => (getMenuItemById env barId itemId t).2
  | a_getUserReviewCount userId => (getUserReviewCount env userId t).2
  | a_getUserReviews userId => (getUserReviews env userId t).2
  | a_checkUserReview barId => (checkUserReview env barId t).2
  | a_isBarFavorite barId => (isBarFavorite env barId t).2
  end.

(** A server on which nothing is found. *)
Definition missing_api (request : HttpRequest) : Settled AxiosResponse :=
  Rejected (AxiosError "Request failed with status code 404"
              (Some {| response_status := 404;
                       response_data :=
                         Some {| data_message := Some "No encontrado" |} |})).

Definition missing_env : Env :=
  {| authService := Spec.server_down; api := missing_api;
     handler_throws := fun _ => None |}.

(** A server that answers the favourite check with an empty body. *)
Definition empty_body_api (request : HttpRequest) : Settled AxiosResponse :=
  Resolved {| status := 204; data := JsNull |}.

Definition empty_body_env : Env :=
  {| authService := Spec.server_up; api := empty_body_api;
     handler_throws := fun _ => None |}.

End BarQueries.

(** ** ReviewModal: the delete flow and the submit button *)
Module ReviewModalHandlers.

Import BarService ReviewModal.

(** [Platform.OS] *)
Inductive PlatformOS : Type := web | ios | android.

(** What the delete and close handlers do, in order. *)
Inductive Step : Type :=
  | setShowDeleteConfirmation (value : bool)
  | confirm (title message : string) (buttons : list string)
  | alert (title message : string)
  | alert_after (milliseconds : nat) (title message : string)
  | set_loading (value : bool)
  | set_rating (value : nat)
  | set_comment (value : string)
  | notify_onReviewSubmitted
  | notify_onClose
  | call_deleteReview (reviewId : string).

Record Screen : Type := mkScreen {
  steps : list Step;
  requests : Trace
}.

Definition do (e : Step) : Prog Screen unit :=
  effect (fun m => {| steps := steps m ++ [e]; requests := requests m |}).

Definition via_service {A} (c : Prog Trace A) : Prog Screen A :=
  fun m =>
    let '(r, t) := c (requests m) in
    (r, {| steps := steps m; requests := t |}).

(** The [disabled] attribute of the submit button. *)
Definition submit_disabled (loading : bool) (rating : nat) (comment : string)
  : bool :=
  loading || (rating =? 0)%nat || (String.length (trim comment) <? 10)%nat.

Definition handleDeleteReview (os : PlatformOS) (props : Props)
    (loading : bool) : Prog Screen unit :=
  match existingReview props with
  | Some _ =>
      if loading then ret tt
      else
        match os with
        | web => do (setShowDeleteConfirmation true)
        | _ =>
            do (confirm "Delete Review"
                  "Are you sure you want to delete your review? This action cannot be undone."
                  ["Cancel"; "Delete"])
        end
  | None => ret tt
  end.

Definition performDelete (env : Env) (props : Props) : Prog Screen unit :=
  match existingReview props with
  | None => ret tt
  | Some existing =>
      do (set_loading true) ;;
      try_catch_finally
        (do (call_deleteReview (_id existing)) ;;
         via_service (deleteReview env (_id existing)) ;;
         do (set_rating 0) ;;
         do (set_comment "") ;;
         do notify_onReviewSubmitted ;;
         do notify_onClose ;;
         do (alert_after 300 "Success" "Your review has been deleted"))
        (* every [JsError] is [instanceof Error] *)
        (fun error => do (alert "Error" (error_message error)))
        (fun m => {| steps := steps m ++ [set_loading false;
                                         setShowDeleteConfirmation false];
                     requests := requests m |})
  end.

Definition idle : Screen := {| steps := []; requests := [] |}.

Definition is_delete_call (e : Step) : bool :=
  match e with
  | call_deleteReview _ => true
  | _ => false
  end.

Definition editing : Props :=
  {| barId := "bar-1"; barName := "La Cantina";
     existingReview :=
       Some {| _id := "rev-3"; rating := 4; comment := "Muy buen lugar" |} |}.

End ReviewModalHandlers.

(** ** AddMenuItemScreen: submitting the form *)
Module MenuItemSubmit.

Import AddMenuItemScreen.

(** [menuItemData], the object sent to [BusinessService.addMenuItem]. *)
Record MenuItemData : Type := mkMenuItemData {
  bar : string;
  name : string;
  description : string;
  price : float;
  photo : option string;
  type : ItemType;
  alcoholPercentage : float;
  volume : float
}.

Inductive Step : Type :=
  | setErrors (errors : gmap string string)
  | setLoading (value : bool)
  | addMenuItem (barId : string) (menuItemData : MenuItemData)
  | setCreatedItemName (value : string)
  | setShowSuccessModal (value : bool)
  | Alert (title message : string) (buttons : list string).

Definition do (e : Step) : Prog (list Step) unit :=
  effect (fun steps => (steps ++ [e])%list).

Section Submit.

Variable parseFloat : string -> float.
Variable URL_parses : string -> bool.

(** [Platform.OS === 'web'], and how [BusinessService.addMenuItem] (outside
    the sources at hand) settles. *)
Variable on_web : bool.
Variable remote_addMenuItem : string -> MenuItemData -> Settled unit.

Definition menuItemData (barId : string) (form : MenuItemForm) : MenuItemData :=
  {| bar := barId;
     name := trim (AddMenuItemScreen.name form);
     description := trim (AddMenuItemScreen.description form);
     price := parseFloat (AddMenuItemScreen.price form);
     photo := if is_empty (trim (AddMenuItemScreen.photo form)) then None
              else Some (trim (AddMenuItemScreen.photo form));
     type := AddMenuItemScreen.type form;
     alcoholPercentage :=
       match AddMenuItemScreen.type form with
       | alcohol => parseFloat (AddMenuItemScreen.alcoholPercentage form)
       | _ => 0%float
       end;
     volume := if is_empty (AddMenuItemScreen.volume form) then 0%float
               else parseFloat (AddMenuItemScreen.volume form) |}.

Definition handleSubmit (barId : string) (form : MenuItemForm)
  : Prog (list Step) unit :=
  let '(newErrors, valid) := validateForm parseFloat URL_parses form in
  do (setErrors newErrors) ;;
  if negb valid then ret tt
  else
    try_catch_finally
      (do (setLoading true) ;;
       let data := menuItemData barId form in
       do (addMenuItem barId data) ;;
       (fun steps => (remote_addMenuItem barId data, steps)) ;;
       do (setCreatedItemName (trim (AddMenuItemScreen.name form))) ;;
       if on_web then do (setShowSuccessModal true)
       else do (Alert "Success" "Menu item created successfully" ["OK"]))
      (fun error =>
         do (Alert "Error" "Failed to create menu item. Please try again." []))
      (fun steps => (steps ++ [setLoading false])%list).

End Submit.

Definition is_addMenuItem (e : Step) : bool :=
  match e with
  | addMenuItem _ _ => true
  | _ => false
  end.

(** A back end that stores every item, and one that is down. *)
Definition accepting (barId : string) (data : MenuItemData) : Settled unit :=
  Resolved tt.

Definition unreachable (barId : string) (data : MenuItemData) : Settled unit :=
  Rejected (AxiosError "Network Error" None).

End MenuItemSubmit.

(** * Theorems *)

(** ** Comparisons of binary64 numbers *)
Module FloatFacts.

Lemma SFcompare_antisym (x y : SpecFloat.spec_float) :
  SpecFloat.SFcompare y x = option_map CompOpp (SpecFloat.SFcompare x y).
Proof.
  destruct x as [sx | sx | | sx mx ex], y as [sy | sy | | sy my ey];
    simpl; try reflexivity;
    try (destruct sx; reflexivity); try (destruct sy; reflexivity);
    try (destruct sx, sy; reflexivity).
  f_equal.
  destruct sx, sy; simpl; try reflexivity;
    rewrite (Z.compare_antisym ey ex);
    destruct (ey ?= ex)%Z eqn:He; simpl; try reflexivity.
  - f_equal. exact (eq_sym (Pos.compare_cont_antisym mx my Eq)).
  - exact (eq_sym (Pos.compare_cont_antisym mx my Eq)).
Qed.

Lemma SFcompare_refl (x : SpecFloat.spec_float) :
  SpecFloat.SFcompare x x =
  match x with SpecFloat.S754_nan => None | _ => Some Eq end.
Proof.
  destruct x as [s | s | | s m e]; simpl; try reflexivity.
  - destruct s; reflexivity.
  - rewrite Z.compare_refl.
    change (Pos.compare_cont Eq m m) with (m ?= m)%positive.
    rewrite Pos.compare_refl. destruct s; reflexivity.
Qed.

Lemma is_nan_spec (x : float) :
  PrimFloat.is_nan x =
  match Prim2SF x with SpecFloat.S754_nan => true | _ => false end.
Proof.
  unfold PrimFloat.is_nan. rewrite FloatAxioms.eqb_spec. unfold SpecFloat.SFeqb.
  rewrite SFcompare_refl. destruct (Prim2SF x); reflexivity.
Qed.

(** The test of the source, [isNaN(x) || x <= 0 || x > 100], fails exactly
    on the numbers in (0, 100]. *)
Lemma percent_check (x : float) :
  negb (PrimFloat.is_nan x || (x <=? 0)%float || (100 <? x)%float)
  = (0 <? x)%float && (x <=? 100)%float.
Proof.
  rewrite is_nan_spec, !FloatAxioms.leb_spec, !FloatAxioms.ltb_spec.
  unfold SpecFloat.SFleb, SpecFloat.SFltb.
  rewrite (SFcompare_antisym (Prim2SF x) (Prim2SF 0)).
  rewrite (SFcompare_antisym (Prim2SF x) (Prim2SF 100)).
  replace (Prim2SF 0) with (SpecFloat.S754_zero false) by (vm_compute; reflexivity).
  set (hundred := Prim2SF 100).
  assert (Hh : exists m e, hundred = SpecFloat.S754_finite false m e)
    by (vm_compute; eauto).
  destruct Hh as (m100 & e100 & ->).
  destruct (Prim2SF x) as [s | s | | s m e]; simpl; try reflexivity.
  - destruct s; reflexivity.
  - destruct s; simpl; [reflexivity |].
    destruct (e ?= e100)%Z; simpl; try reflexivity.
    destruct (Pos.compare_cont Eq m m100); reflexivity.
Qed.

End FloatFacts.

(** ** The session reducer *)
Module ReducerFacts.

Import AuthService AuthContext Spec.

(** The next state does not depend on the world. *)
Lemma authReducer_state_indep state action w w' :
  (authReducer state action w).1 = (authReducer state action w').1.
Proof. destruct action; reflexivity. Qed.

Lemma authReducer_isAuthenticated state action w :
  isAuthenticated (authReducer state action w).1 =
  if is_settling action
  then match action with AUTH_SUCCESS _ _ => true | _ => false end
  else isAuthenticated state.
Proof. destruct action; reflexivity. Qed.

Lemma reduce_all_cons action rest state w :
  reduce_all (action :: rest) state w =
  reduce_all rest (authReducer state action w).1 (authReducer state action w).2.
Proof. simpl. destruct (authReducer state action w). reflexivity. Qed.

Lemma reduce_all_app events events' state w :
  reduce_all (events ++ events')%list state w =
  reduce_all events' (reduce_all events state w).1 (reduce_all events state w).2.
Proof.
  revert state w. induction events as [| action rest IH]; intros state w.
  - reflexivity.
  - rewrite <- app_comm_cons, !reduce_all_cons. apply IH.
Qed.

Lemma reduce_all_isAuthenticated events state w :
  isAuthenticated (reduce_all events state w).1 =
  match last_settling events with
  | Some (AUTH_SUCCESS _ _) => true
  | Some _ => false
  | None => isAuthenticated state
  end.
Proof.
  revert state w. induction events as [| action rest IH]; intros state w.
  - reflexivity.
  - rewrite reduce_all_cons, IH. simpl.
    destruct (last_settling rest) as [later |]; [reflexivity |].
    rewrite authReducer_isAuthenticated.
    destruct action; reflexivity.
Qed.

(** C1: after any history of events applied from the initial state,
    [isAuthenticated] holds exactly when the most recent settling event is
    an [AUTH_SUCCESS] (which carries a user); it is false right after an
    [AUTH_FAILURE] or an [AUTH_LOGOUT]; and an event that does not settle
    leaves [isAuthenticated] as it was. *)
Theorem isAuthenticated_iff_last_settling_success
    (events : list AuthAction) (w : World) :
  (isAuthenticated (reduce_all events initialState w).1 = true
   ↔ ∃ u t, last_settling events = Some (AUTH_SUCCESS u t))
  ∧ (∀ earlier e, events = (earlier ++ [AUTH_FAILURE e])%list →
       isAuthenticated (reduce_all events initialState w).1 = false)
  ∧ (∀ earlier, events = (earlier ++ [AUTH_LOGOUT])%list →
       isAuthenticated (reduce_all events initialState w).1 = false)
  ∧ (∀ state action w',
       is_settling action = false →
       isAuthenticated (authReducer state action w').1 = isAuthenticated state).
Proof.
  repeat split.
  - rewrite reduce_all_isAuthenticated.
    destruct (last_settling events) as [[] |]; simpl; try discriminate; eauto.
  - intros (u & t & Hlast). rewrite reduce_all_isAuthenticated, Hlast. reflexivity.
  - intros earlier e ->. rewrite reduce_all_app. reflexivity.
  - intros earlier ->. rewrite reduce_all_app. reflexivity.
  - intros state action w' Hns. rewrite authReducer_isAuthenticated, Hns.
    reflexivity.
Qed.

Lemma isAuthenticated_iff_last_settling_success_witness :
  last_settling sample_history = Some (AUTH_SUCCESS ana (Some "jwt-1"))
  ∧ isAuthenticated (reduce_all sample_history initialState browser).1 = true.
Proof.
  split; [reflexivity |].
  apply (proj1 (isAuthenticated_iff_last_settling_success sample_history browser)).
  exists ana, (Some "jwt-1"). reflexivity.
Defined.

Lemma authReducer_preserves_invariant state action w :
  session_invariant state → session_invariant (authReducer state action w).1.
Proof.
  intros [Huser Herr].
  destruct action; split; simpl; intros; try discriminate; auto.
Qed.

(** C2, as stated, fails: logging in again from an authenticated session
    dispatches [AUTH_START], which sets [isLoading] and keeps
    [isAuthenticated]. *)
Lemma relogin_breaks_claimed_invariant :
  ¬ session_invariant_claimed (reduce_all relogin_history initialState browser).1.
Proof.
  intros [_ Hloading].
  destruct (Hloading eq_refl) as [Hauth _]. discriminate Hauth.
Qed.

Example relogin_state :
  (reduce_all relogin_history initialState browser).1
  = {| isAuthenticated := true; isLoading := true; user := Some ana;
       error := None |}.
Proof. reflexivity. Qed.

(** C2, amended: every state reached from the initial state has a user
    whenever it is authenticated, and has no error whenever it is loading. *)
Theorem reachable_session_invariant (events : list AuthAction) (w : World) :
  session_invariant (reduce_all events initialState w).1.
Proof.
  assert (Hinit : session_invariant initialState) by (split; [discriminate | reflexivity]).
  revert Hinit. generalize initialState as state. revert w.
  induction events as [| action rest IH]; intros w state Hinv.
  - exact Hinv.
  - rewrite reduce_all_cons. apply IH.
    apply authReducer_preserves_invariant, Hinv.
Qed.

(** C9: an action whose [type] is none of the seven known labels takes the
    [default] branch: the state (and the world) is returned unchanged. *)
Theorem unknown_action_leaves_state
    (state : AuthState) (action : AuthAction) (w : World) :
  action_type action ∉ known_action_types →
  authReducer state action w = (state, w).
Proof.
  intros Hunknown.
  destruct action; try reflexivity;
    exfalso; apply Hunknown; unfold known_action_types; simpl; set_solver.
Qed.

Lemma unknown_action_leaves_state_witness :
  (action_type refresh_action ∉ known_action_types)
  ∧ authReducer initialState refresh_action browser = (initialState, browser).
Proof.
  assert (H : action_type refresh_action ∉ known_action_types)
    by (apply (bool_decide_eq_false_1 _); reflexivity).
  split; [exact H |].
  exact (unknown_action_leaves_state initialState refresh_action browser H).
Defined.

End ReducerFacts.

(** ** The auth session manager *)
Module ProviderFacts.

Import AuthService AuthContext Spec.

Ltac run_prog :=
  unfold checkExistingAuth, AuthContext.login, AuthContext.logout,
    try_catch, bind, ret, throw, dispatch, effect, await_service;
  simpl.

Lemma or_else_nonempty (a : option string) (b : string) :
  b ≠ "" → or_else a b ≠ "".
Proof. intros Hb. destruct a as [[| c s] |]; simpl; congruence. Qed.

Lemma removeToken_world (w : World) :
  (removeToken w).2 =
  {| localStorage := removeItem TOKEN_STORAGE_KEY <$> localStorage w;
     globalCurrentUser := globalCurrentUser w |}.
Proof. destruct w as [[st |] g]; reflexivity. Qed.

Lemma getToken_removeToken (w : World) : getToken (removeToken w).2 = None.
Proof.
  rewrite removeToken_world. destruct w as [[st |] g]; simpl; [| reflexivity].
  unfold getToken, getItem, removeItem. simpl. apply lookup_delete_eq.
Qed.

Lemma cleared_spec (w : World) :
  getToken (cleared w) = None
  ∧ localStorage (cleared w) = removeItem TOKEN_STORAGE_KEY <$> localStorage w
  ∧ globalCurrentUser (cleared w) = None.
Proof.
  unfold cleared. split; [apply getToken_removeToken |].
  rewrite removeToken_world. split; reflexivity.
Qed.

(** C3: however the remote logout call settles, [logout] resolves, its last
    step is the [AUTH_LOGOUT] transition, the session is the unauthenticated
    one and the token is gone from the store. *)
Theorem logout_always_clears_session (authService : Behaviour) (p : Provider) :
  ∃ p', AuthContext.logout authService p = (Resolved tt, p')
    ∧ state p' = unauthenticated
    ∧ getToken (world p') = None
    ∧ localStorage (world p') =
        removeItem TOKEN_STORAGE_KEY <$> localStorage (world p)
    ∧ globalCurrentUser (world p') = None
    ∧ events p' =
        (events p ++ [Called call_logout; Dispatched AUTH_LOGOUT])%list.
Proof.
  run_prog. pose proof (cleared_spec (world p)) as (Htok & Hls & Hg).
  destruct (AuthService.logout authService) as [[] | e]; simpl;
    (eexists; split; [reflexivity |]; simpl; repeat split;
     [ exact Htok | exact Hls | exact Hg | rewrite <- app_assoc; reflexivity ]).
Qed.

(** C4: at start-up, when no token is on record the session settles to the
    unauthenticated one and the only service call is [hasToken] (the
    validation endpoint is not contacted); when a token is on record and
    its validation fails, the session settles through [AUTH_FAILURE] to an
    unauthenticated one and the token is removed from the store. *)
Theorem checkExistingAuth_settles_unauthenticated
    (authService : Behaviour) (p : Provider) :
  (hasToken authService = Resolved false →
     ∃ p', checkExistingAuth authService p = (Resolved tt, p')
       ∧ state p' = unauthenticated
       ∧ events p' =
           (events p ++ [Dispatched AUTH_START; Called call_hasToken;
                         Dispatched AUTH_COMPLETE_WITHOUT_USER])%list)
  ∧ (hasToken authService = Resolved true →
     failed (validateToken authService) →
     ∃ p' message,
       checkExistingAuth authService p = (Resolved tt, p')
       ∧ state p' = failed_with message
       ∧ message ≠ ""
       ∧ getToken (world p') = None
       ∧ localStorage (world p') =
           removeItem TOKEN_STORAGE_KEY <$> localStorage (world p)
       ∧ events p' =
           (events p ++ [Dispatched AUTH_START; Called call_hasToken;
                         Called call_validateToken;
                         Dispatched (AUTH_FAILURE message)])%list).
Proof.
  pose proof (cleared_spec (world p)) as (Htok & Hls & _).
  split.
  - intros Hnone. run_prog. rewrite Hnone. simpl.
    eexists; split; [reflexivity |]. simpl. split; [reflexivity |].
    rewrite <- !app_assoc. reflexivity.
  - intros Hsome Hfailed. run_prog. rewrite Hsome. simpl.
    destruct (validateToken authService) as [response | e]; simpl in *.
    + unfold carries_user in Hfailed.
      exists {| state := failed_with (or_else (message response) MSG_TOKEN_INVALID);
                world := cleared (world p);
                events := (events p ++ [Dispatched AUTH_START; Called call_hasToken;
                              Called call_validateToken;
                              Dispatched (AUTH_FAILURE
                                (or_else (message response) MSG_TOKEN_INVALID))])%list |},
             (or_else (message response) MSG_TOKEN_INVALID).
      repeat split; simpl; auto.
      * destruct (success response), (AuthService.user response);
          try discriminate; simpl; rewrite <- !app_assoc; reflexivity.
      * apply or_else_nonempty. discriminate.
    + exists {| state := failed_with MSG_CHECK_FAILED;
                world := cleared (world p);
                events := (events p ++ [Dispatched AUTH_START; Called call_hasToken;
                              Called call_validateToken;
                              Dispatched (AUTH_FAILURE MSG_CHECK_FAILED)])%list |},
             MSG_CHECK_FAILED.
      repeat split; simpl; auto; try discriminate.
      rewrite <- !app_assoc. reflexivity.
Qed.

Lemma checkExistingAuth_settles_unauthenticated_witness :
  (hasToken server_up = Resolved false
   ∧ state (checkExistingAuth server_up (mounted browser)).2 = unauthenticated)
  ∧ (hasToken server_stale = Resolved true
     ∧ failed (validateToken server_stale)
     ∧ isAuthenticated
         (state (checkExistingAuth server_stale (mounted browser)).2) = false
     ∧ getToken (world (checkExistingAuth server_stale (mounted browser)).2)
       = None).
Proof.
  split.
  - split; [reflexivity |].
    destruct (proj1 (checkExistingAuth_settles_unauthenticated
                       server_up (mounted browser)) eq_refl)
      as (p' & Hrun & Hstate & _).
    rewrite Hrun. exact Hstate.
  - split; [reflexivity |]. split; [reflexivity |].
    destruct (proj2 (checkExistingAuth_settles_unauthenticated
                       server_stale (mounted browser)) eq_refl eq_refl)
      as (p' & message & Hrun & Hstate & _ & Htoken & _).
    rewrite Hrun. simpl. rewrite Hstate. split; [reflexivity | exact Htoken].
Defined.

Lemma saveToken_globalCurrentUser (t : string) (w : World) :
  globalCurrentUser (saveToken t w).2 = globalCurrentUser w.
Proof.
  unfold saveToken. destruct (localStorage w) as [st |]; [| reflexivity].
  destruct (setItem_throws st); reflexivity.
Qed.

Lemma getToken_saveToken (t : string) (w : World) (st : Storage) :
  localStorage w = Some st → setItem_throws st = false →
  getToken (saveToken t w).2 = Some t.
Proof.
  intros Hst Hok. unfold saveToken, getToken. rewrite Hst, Hok. simpl.
  unfold getItem, setItem. simpl. apply lookup_insert_eq.
Qed.

(** C5: whatever the credentials and however the remote call settles,
    [login] resolves with an [AuthResponse] (it never rejects).  On a
    successful response carrying a user the session becomes authenticated as
    that user and the response's token is handed to [saveToken], after
    which a store that accepts writes holds it; on a failing response or a thrown error the session carries a
    non-empty error message, and for a thrown error the resolved response
    has [success = false]. *)
Theorem login_always_resolves
    (authService : Behaviour) (credentials : LoginData) (p : Provider) :
  ∃ response p',
    AuthContext.login authService credentials p = (Resolved response, p')
    ∧ (∀ r u,
         AuthService.login authService credentials = Resolved r →
         success r = true → AuthService.user r = Some u →
         response = r
         ∧ state p' = authenticated_as u
         ∧ globalCurrentUser (world p') = Some u
         ∧ (∀ t,
              token r = Some t → t ≠ "" →
              world p'
              = (saveToken t (set_globalCurrentUser (Some u) (world p))).2)
         ∧ (∀ t st,
              token r = Some t → t ≠ "" →
              localStorage (world p) = Some st → setItem_throws st = false →
              getToken (world p') = Some t))
    ∧ (∀ r,
         AuthService.login authService credentials = Resolved r →
         carries_user r = false →
         response = r
         ∧ state p' = failed_with (or_else (message r) "Error en el login"))
    ∧ (∀ e,
         AuthService.login authService credentials = Rejected e →
         success response = false
         ∧ state p' = failed_with "Error durante el login")
    ∧ (failed (AuthService.login authService credentials) →
         ∃ message, message ≠ "" ∧ state p' = failed_with message).
Proof.
  run_prog.
  destruct (AuthService.login authService credentials) as [r | e]; simpl.
  - destruct (carries_user r) eqn:Hcarries.
    + unfold carries_user in Hcarries.
      destruct (success r) eqn:Hsuccess; [| discriminate].
      destruct (AuthService.user r) as [u |] eqn:Huser; [| discriminate].
      simpl. eexists; eexists; split; [reflexivity |]. simpl.
      split; [| split; [| split]].
      * intros r0 u0 [= <-] _ Hu0. rewrite Huser in Hu0.
        injection Hu0 as <-.
        split; [reflexivity |]. split; [reflexivity |]. split; [| split].
        -- destruct (token r) as [[| c t'] |];
             rewrite ?saveToken_globalCurrentUser; reflexivity.
        -- intros t Htoken Hne. rewrite Htoken.
           destruct t as [| c t']; [congruence | reflexivity].
        -- intros t st Htoken Hne Hst Hok. rewrite Htoken.
           destruct t as [| c t']; [congruence |].
           apply (getToken_saveToken _ _ st); [exact Hst | exact Hok].
      * intros r0 [= <-] Hno. unfold carries_user in Hno.
        rewrite Hsuccess, Huser in Hno. discriminate.
      * intros e [=].
      * intros [=].
    + unfold carries_user in Hcarries.
      destruct (success r) eqn:Hsuccess,
               (AuthService.user r) as [u |] eqn:Huser;
        try discriminate; simpl;
        (eexists; eexists; split; [reflexivity |]; simpl;
         split; [| split; [| split]];
         [ intros r0 u0 [= <-] Hs Hu0; congruence
         | intros r0 [= <-] _; split; reflexivity
         | intros e [=]
         | intros _; eexists; split; [| reflexivity];
           apply or_else_nonempty; discriminate ]).
  - eexists; eexists; split; [reflexivity |]. simpl.
    split; [| split; [| split]].
    + intros r u [=].
    + intros r [=].
    + intros e' _. split; reflexivity.
    + intros _. eexists; split; [| reflexivity]. discriminate.
Qed.

Lemma login_always_resolves_witness :
  (AuthService.login server_up credentials_ana
     = Resolved {| success := true; AuthService.user := Some ana;
                   token := Some "jwt-2"; message := None |}
   ∧ "jwt-2" ≠ "")
  ∧ state (AuthContext.login server_up credentials_ana (mounted browser)).2
      = authenticated_as ana
  ∧ getToken (world (AuthContext.login server_up credentials_ana
                       (mounted browser)).2) = Some "jwt-2".
Proof.
  split; [split; [reflexivity | discriminate] |].
  destruct (login_always_resolves server_up credentials_ana (mounted browser))
    as (response & p' & Hrun & Hsuccess & _).
  destruct (Hsuccess _ ana eq_refl eq_refl eq_refl)
    as (_ & Hstate & _ & _ & Htoken).
  rewrite Hrun. split; [exact Hstate |].
  apply (Htoken "jwt-2" {| items := {[ TOKEN_STORAGE_KEY := "stale-token" ]};
                          setItem_throws := false |});
    [reflexivity | discriminate | reflexivity | reflexivity].
Defined.

(** The operations on the sample values. *)
Example logout_offline :
  AuthContext.logout server_down logged_in
  = (Resolved tt,
     {| state := unauthenticated;
        world := {| localStorage :=
                      Some {| items := delete TOKEN_STORAGE_KEY
                                         {[ TOKEN_STORAGE_KEY := "stale-token" ]};
                              setItem_throws := false |};
                    globalCurrentUser := None |};
        events := [Called call_logout; Dispatched AUTH_LOGOUT] |}).
Proof. reflexivity. Qed.

Example login_wrong_password :
  (AuthContext.login server_up
     {| email := "eva@example.org"; password := "x" |} (mounted browser)).1
  = Resolved {| success := false; AuthService.user := None; token := None;
                message := Some "Credenciales incorrectas" |}
  ∧ state (AuthContext.login server_up
             {| email := "eva@example.org"; password := "x" |}
             (mounted browser)).2
    = failed_with "Credenciales incorrectas".
Proof. split; reflexivity. Qed.

Example login_offline :
  (AuthContext.login server_down credentials_ana (mounted browser)).1
  = Resolved {| success := false; AuthService.user := None; token := None;
                message := Some "Error durante el login" |}.
Proof. reflexivity. Qed.

Example startup_offline :
  state (checkExistingAuth server_down (mounted browser)).2
  = failed_with MSG_CHECK_FAILED
  ∧ getToken (world (checkExistingAuth server_down (mounted browser)).2) = None.
Proof. split; vm_compute; reflexivity. Qed.

End ProviderFacts.

(** ** The menu-item form *)
Module FormFacts.

Import AddMenuItemScreen.

Lemma size_insert_nonzero (k v : string) (m : gmap string string) :
  (size (<[k := v]> m) =? 0)%nat = false.
Proof.
  apply Nat.eqb_neq. intros Hsize.
  apply map_size_empty_inv in Hsize.
  exact (insert_non_empty m k v Hsize).
Qed.

Lemma size_cond_insert (c : bool) (k v : string) (m : gmap string string) :
  (size (if c then <[k := v]> m else m) =? 0)%nat
  = negb c && (size m =? 0)%nat.
Proof. destruct c; [apply size_insert_nonzero | reflexivity]. Qed.

Lemma size_cond_insert2 (c d : bool) (k v k' v' : string)
    (m : gmap string string) :
  (size (if c then <[k := v]> m else if d then <[k' := v']> m else m) =? 0)%nat
  = negb c && negb d && (size m =? 0)%nat.
Proof.
  destruct c; [apply size_insert_nonzero |].
  destruct d; [apply size_insert_nonzero | reflexivity].
Qed.

Lemma size_alcohol_step (ty : ItemType) (c d : bool) (k v k' v' : string)
    (m : gmap string string) :
  (size match ty with
        | alcohol =>
            if c then <[k := v]> m else if d then <[k' := v']> m else m
        | _ => m
        end =? 0)%nat
  = match ty with alcohol => negb c && negb d | _ => true end
    && (size m =? 0)%nat.
Proof. destruct ty; [apply size_cond_insert2 | reflexivity | reflexivity]. Qed.

Section Validation.

Variable parseFloat : string -> float.
Variable URL_parses : string -> bool.

(** The form passes exactly when the other fields are valid and, for an
    alcoholic item, the percentage is filled in and parses into (0, 100]. *)
Lemma validateForm_passes (form : MenuItemForm) :
  (validateForm parseFloat URL_parses form).2 =
  other_fields_valid parseFloat URL_parses form
  && match type form with
     | alcohol =>
         negb (is_empty (trim (alcoholPercentage form)))
         && in_range (parseFloat (alcoholPercentage form))
     | _ => true
     end.
Proof.
  unfold in_range. rewrite <- FloatFacts.percent_check.
  unfold validateForm, validation_errors, other_fields_valid, isNaN, isValidUrl.
  cbv zeta. cbn [snd].
  rewrite !size_cond_insert, size_alcohol_step, size_cond_insert2,
    !size_cond_insert, map_size_empty.
  generalize (parseFloat (alcoholPercentage form)) as alcoholPercent.
  intros alcoholPercent.
  generalize (PrimFloat.is_nan alcoholPercent || (alcoholPercent <=? 0)%float
              || (100 <? alcoholPercent)%float) as out_of_range.
  generalize (is_empty (trim (alcoholPercentage form))) as no_percent.
  generalize (PrimFloat.is_nan (parseFloat (volume form))) as volume_nan.
  generalize (parseFloat (volume form) <? 0)%float as volume_neg.
  generalize (is_empty (trim (volume form))) as no_volume.
  generalize (is_empty (photo form)) as no_photo.
  generalize (URL_parses (photo form)) as url_ok.
  generalize (PrimFloat.is_nan (parseFloat (price form))) as price_nan.
  generalize (parseFloat (price form) <? 0)%float as price_neg.
  generalize (is_empty (trim (price form))) as no_price.
  generalize (is_empty (trim (name form))) as no_name.
  generalize (is_empty (trim (description form))) as no_description.
  destruct (type form);
    intros [] [] [] [] [] [] [] [] [] [] [] []; reflexivity.
Qed.

(** C6: the alcohol percentage is required exactly for alcoholic items.
    With type [alcohol] a blank field fails validation, a form that passes
    has a non-empty field whose parsed value lies in (0, 100], and with the
    other fields valid a filled-in field with such a value passes; 0 is out
    of the range and 100 is in it.  With another type ([comida], [bebida])
    the result is that of the other fields, whatever the field holds. *)
Theorem alcohol_percentage_required_iff_alcohol (form : MenuItemForm) :
  (type form = alcohol →
   trim (alcoholPercentage form) = "" →
   (validateForm parseFloat URL_parses form).2 = false)
  ∧ (type form = alcohol →
     (validateForm parseFloat URL_parses form).2 = true →
     alcoholPercentage form ≠ ""
     ∧ in_range (parseFloat (alcoholPercentage form)) = true)
  ∧ (type form = alcohol →
     other_fields_valid parseFloat URL_parses form = true →
     trim (alcoholPercentage form) ≠ "" →
     in_range (parseFloat (alcoholPercentage form)) = true →
     (validateForm parseFloat URL_parses form).2 = true)
  ∧ (in_range 0 = false ∧ in_range 100 = true)
  ∧ (type form ≠ alcohol →
     ∀ text,
       (validateForm parseFloat URL_parses (with_alcoholPercentage form text)).2
       = other_fields_valid parseFloat URL_parses form).
Proof.
  split; [| split; [| split; [| split]]].
  - intros Hty Hblank. rewrite validateForm_passes, Hty, Hblank.
    simpl. apply andb_false_r.
  - intros Hty Hpass. rewrite validateForm_passes, Hty in Hpass.
    apply andb_prop in Hpass as [_ Hpass].
    apply andb_prop in Hpass as [Hfilled Hrange].
    split; [| exact Hrange].
    intros Hempty. rewrite Hempty in Hfilled. discriminate Hfilled.
  - intros Hty Hother Hfilled Hrange.
    rewrite validateForm_passes, Hty, Hother, Hrange.
    destruct (trim (alcoholPercentage form)); [congruence | reflexivity].
  - split; vm_compute; reflexivity.
  - intros Hty text. rewrite validateForm_passes.
    change (type (with_alcoholPercentage form text)) with (type form).
    change (other_fields_valid parseFloat URL_parses
              (with_alcoholPercentage form text))
      with (other_fields_valid parseFloat URL_parses form).
    destruct (type form); [congruence | |]; apply andb_true_r.
Qed.

End Validation.

Lemma alcohol_percentage_required_iff_alcohol_witness :
  (type (with_alcoholPercentage tequila "  ") = alcohol
   ∧ trim (alcoholPercentage (with_alcoholPercentage tequila "  ")) = ""
   ∧ (validateForm Runtime.parseFloat_decimal Runtime.URL_parses_http
        (with_alcoholPercentage tequila "  ")).2 = false)
  ∧ (type tequila = alcohol
     ∧ (validateForm Runtime.parseFloat_decimal Runtime.URL_parses_http
          tequila).2 = true
     ∧ in_range (Runtime.parseFloat_decimal (alcoholPercentage tequila)) = true)
  ∧ (type tacos ≠ alcohol
     ∧ (validateForm Runtime.parseFloat_decimal Runtime.URL_parses_http
          (with_alcoholPercentage tacos "350")).2 = true).
Proof.
  split; [| split].
  - split; [reflexivity |]. split; [reflexivity |].
    apply (proj1 (alcohol_percentage_required_iff_alcohol
                    Runtime.parseFloat_decimal Runtime.URL_parses_http
                    (with_alcoholPercentage tequila "  ")));
      reflexivity.
  - split; [reflexivity |].
    assert (Hpass : (validateForm Runtime.parseFloat_decimal
                       Runtime.URL_parses_http tequila).2 = true)
      by (vm_compute; reflexivity).
    split; [exact Hpass |].
    apply (proj1 (proj2 (alcohol_percentage_required_iff_alcohol
                           Runtime.parseFloat_decimal Runtime.URL_parses_http
                           tequila)));
      [reflexivity | exact Hpass].
  - split; [discriminate |].
    rewrite (proj2 (proj2 (proj2 (proj2
               (alcohol_percentage_required_iff_alcohol
                  Runtime.parseFloat_decimal Runtime.URL_parses_http tacos)))));
      [vm_compute; reflexivity | discriminate].
Defined.

End FormFacts.

(** ** The bar service *)
Module BarFacts.

Import AuthService BarService BarSpec.

Ltac run_service :=
  unfold run, createReview, updateReview, deleteReview, addBarToFavorites,
    removeBarFromFavorites, checkUserReview, isBarFavorite,
    normalize_or_handle, try_catch, bind, ret, throw, send, get_property;
  simpl.

Lemma no_user_id (env : Env) :
  truthy (current_user_id env) = false →
  current_user_id env = None ∨ current_user_id env = Some "".
Proof.
  destruct (current_user_id env) as [[| c s] |]; simpl; auto; discriminate.
Qed.

(** C8, as stated, fails: with no current user [checkUserReview] (and
    [isBarFavorite]) resolves instead of throwing 'User not
    authenticated'. *)
Lemma checkUserReview_does_not_fail_fast :
  current_user_id visitor_env = None
  ∧ checkUserReview visitor_env "bar-1" [] = (Resolved NO_REVIEW, [])
  ∧ (checkUserReview visitor_env "bar-1" []).1 ≠ Rejected NOT_AUTHENTICATED.
Proof. split; [reflexivity |]. split; [reflexivity | discriminate]. Qed.

(** C8, amended: with no current user the methods [createReview],
    [updateReview], [deleteReview], [addBarToFavorites] and
    [removeBarFromFavorites] throw 'User not authenticated' without sending
    a request, while [checkUserReview] and [isBarFavorite] resolve without
    sending one; [getUserReviewCount] and [getUserReviews], called without a
    user id, reject without sending a request, with 'User not
    authenticated' unless [HandleLoginError] throws; and when the request of one of the first four fails with an
    axios error, the error thrown is an [Error] whose message is the body's
    message if it is present and non-empty, the axios error's message
    otherwise. *)
Theorem caller_identity_and_error_message (env : Env) (t : Trace) :
  (truthy (current_user_id env) = false →
     (∀ call, run env call t = (Rejected NOT_AUTHENTICATED, t))
     ∧ (∀ barId, checkUserReview env barId t = (Resolved NO_REVIEW, t))
     ∧ (∀ barId, isBarFavorite env barId t = (Resolved (JsBool false), t))
     ∧ (∀ userId, truthy userId = false →
          ∃ e,
            getUserReviewCount env userId t
              = (Rejected e, (t ++ [Handled NOT_AUTHENTICATED])%list)
            ∧ getUserReviews env userId t
              = (Rejected e, (t ++ [Handled NOT_AUTHENTICATED])%list)
            ∧ (handler_throws env NOT_AUTHENTICATED = None →
               e = NOT_AUTHENTICATED)))
  ∧ (∀ userId call message response,
       current_user_id env = Some userId → userId ≠ "" →
       normalises call = true →
       api env (request_of userId call)
         = Rejected (AxiosError message response) →
       run env call t
       = (Rejected (Error (or_else (body_message (AxiosError message response))
                                   message)),
          (t ++ [Http (request_of userId call)])%list)).
Proof.
  split.
  - intros Hnone. apply no_user_id in Hnone.
    split; [| split; [| split]].
    + intros call. destruct call; run_service;
        destruct Hnone as [-> | ->]; reflexivity.
    + intros barId. run_service. destruct Hnone as [-> | ->]; reflexivity.
    + intros barId. run_service. destruct Hnone as [-> | ->]; reflexivity.
    + intros userId Hno.
      unfold getUserReviewCount, getUserReviews, HandleLoginError.
      run_service. rewrite Hno.
      destruct Hnone as [-> | ->]; simpl;
        destruct (handler_throws env NOT_AUTHENTICATED) as [thrown |];
        simpl; eexists; (split; [reflexivity |]); (split; [reflexivity |]);
        congruence.
  - intros userId call message response Hid Hne Hnorm Hfail.
    destruct userId as [| c s]; [congruence |].
    destruct call; try discriminate Hnorm; run_service;
      rewrite Hid; simpl in Hfail |- *; rewrite Hfail; reflexivity.
Qed.

Lemma caller_identity_and_error_message_witness :
  (truthy (current_user_id visitor_env) = false
   ∧ run visitor_env (to_addBarToFavorites "bar-1") []
     = (Rejected NOT_AUTHENTICATED, []))
  ∧ (current_user_id refused_env = Some "u-17"
     ∧ (run refused_env
          (to_createReview "bar-1"
             {| rating := 4; comment := "Muy buen lugar"; photos := None |})
          []).1
       = Rejected (Error "Ya existe una rese")).
Proof.
  split.
  - split; [reflexivity |].
    apply (proj1 (caller_identity_and_error_message visitor_env [])).
    reflexivity.
  - split; [reflexivity |].
    rewrite (proj2 (caller_identity_and_error_message refused_env [])
               "u-17" _ "Request failed with status code 409"
               (Some {| response_status := 409;
                        response_data :=
                          Some {| data_message := Some "Ya existe una rese" |} |})
               eq_refl);
      [reflexivity | discriminate | reflexivity | reflexivity].
Defined.

(** C10: [checkUserReview] and [isBarFavorite] always resolve.  With no
    current user, or when the request fails, they resolve to
    [{hasReviewed: false}] and [false]: the very results obtained when the
    server answers that there is no review, or that the bar is not a
    favourite. *)
Theorem review_and_favorite_checks_are_total
    (env : Env) (barId : string) (t : Trace) :
  (∃ v t', checkUserReview env barId t = (Resolved v, t'))
  ∧ (∃ v t', isBarFavorite env barId t = (Resolved v, t'))
  ∧ (truthy (current_user_id env) = false →
       checkUserReview env barId t = (Resolved NO_REVIEW, t)
       ∧ isBarFavorite env barId t = (Resolved (JsBool false), t))
  ∧ (∀ userId,
       current_user_id env = Some userId → userId ≠ "" →
       (∀ e, api env (check_review_request userId barId) = Rejected e →
             checkUserReview env barId t
             = (Resolved NO_REVIEW,
                (t ++ [Http (check_review_request userId barId)])%list))
       ∧ (∀ status,
            api env (check_review_request userId barId)
              = Resolved {| status := status; data := NO_REVIEW |} →
            checkUserReview env barId t
            = (Resolved NO_REVIEW,
               (t ++ [Http (check_review_request userId barId)])%list))
       ∧ (∀ e, api env (check_favorite_request userId barId) = Rejected e →
             isBarFavorite env barId t
             = (Resolved (JsBool false),
                (t ++ [Http (check_favorite_request userId barId)])%list))
       ∧ (∀ status,
            api env (check_favorite_request userId barId)
              = Resolved {| status := status; data := NOT_FAVORITE |} →
            isBarFavorite env barId t
            = (Resolved (JsBool false),
               (t ++ [Http (check_favorite_request userId barId)])%list))).
Proof.
  split; [| split; [| split]].
  - run_service. destruct (current_user_id env) as [[| c s] |]; simpl; eauto.
    destruct (api env _) as [response | e]; simpl; eauto.
  - run_service. destruct (current_user_id env) as [[| c s] |]; simpl; eauto.
    destruct (api env _) as [response | e]; simpl; eauto.
    destruct (data response); simpl; eauto.
  - intros Hnone. apply no_user_id in Hnone.
    run_service. destruct Hnone as [-> | ->]; split; reflexivity.
  - intros userId Hid Hne. destruct userId as [| c s]; [congruence |].
    unfold check_review_request, check_favorite_request.
    split; [| split; [| split]].
    + intros e Hfail. run_service. rewrite Hid. simpl. rewrite Hfail. reflexivity.
    + intros status Hok. run_service. rewrite Hid. simpl. rewrite Hok. reflexivity.
    + intros e Hfail. run_service. rewrite Hid. simpl. rewrite Hfail. reflexivity.
    + intros status Hok. run_service. rewrite Hid. simpl. rewrite Hok. reflexivity.
Qed.

Lemma review_and_favorite_checks_are_total_witness :
  (truthy (current_user_id visitor_env) = false
   ∧ checkUserReview visitor_env "bar-1" [] = (Resolved NO_REVIEW, [])
   ∧ isBarFavorite visitor_env "bar-1" [] = (Resolved (JsBool false), []))
  ∧ (current_user_id refused_env = Some "u-17"
     ∧ (isBarFavorite refused_env "bar-1" []).1 = Resolved (JsBool false)).
Proof.
  split.
  - split; [reflexivity |].
    apply (proj1 (proj2 (proj2
             (review_and_favorite_checks_are_total visitor_env "bar-1" [])))).
    reflexivity.
  - split; [reflexivity |].
    destruct (proj2 (proj2 (proj2
                (review_and_favorite_checks_are_total refused_env "bar-1" [])))
                "u-17" eq_refl) as (_ & _ & Hfail & _); [discriminate |].
    rewrite (Hfail _ eq_refl). reflexivity.
Defined.

End BarFacts.

(** ** The review modal *)
Module ReviewFacts.

Import BarService BarSpec ReviewModal.

Lemma length_trimStart (s : string) :
  (String.length (trimStart s) ≤ String.length s)%nat.
Proof.
  induction s as [| c rest IH]; simpl; [lia |].
  destruct (is_whitespace c); simpl; lia.
Qed.

Lemma length_trimEnd (s : string) :
  (String.length (trimEnd s) ≤ String.length s)%nat.
Proof.
  induction s as [| c rest IH]; simpl; [lia |].
  destruct (trimEnd rest) as [| c' kept]; simpl in *.
  - destruct (is_whitespace c); simpl; lia.
  - lia.
Qed.

Lemma length_trim (s : string) :
  (String.length (trim s) ≤ String.length s)%nat.
Proof.
  unfold trim. etransitivity; [apply length_trimEnd | apply length_trimStart].
Qed.

(** A call made on behalf of a logged-in user sends exactly one request. *)
Lemma run_sends_one_request (env : Env) (call : GuardedCall) :
  truthy (current_user_id env) = true →
  ∃ request, http_requests (run env call []).2 = [request].
Proof.
  intros Huser.
  destruct (current_user_id env) as [[| c s] |] eqn:Hid; try discriminate.
  exists (request_of (String c s) call).
  destruct call; BarFacts.run_service; rewrite Hid; simpl;
    try reflexivity;
    match goal with
    | |- context [api env ?r] => destruct (api env r) as [response | e]
    end; simpl; try reflexivity;
    destruct e; simpl; try reflexivity;
    unfold HandleLoginError; simpl;
    match goal with
    | |- context [handler_throws env ?x] => destruct (handler_throws env x)
    end; reflexivity.
Qed.

Lemma too_short_is_rejected (env : Env) (props : Props)
    (rating : nat) (comment : string) :
  (String.length (trim comment) < 10)%nat →
  rejected_client_side (handleSubmit env props (submission rating comment)).2.
Proof.
  intros Hshort. unfold handleSubmit, submission.
  cbv beta iota zeta delta [rating_state comment_state].
  destruct (rating =? 0)%nat.
  - split; [reflexivity |]. simpl. intros e He.
    apply list_elem_of_singleton in He as ->. reflexivity.
  - apply Nat.ltb_lt in Hshort. rewrite Hshort.
    split; [reflexivity |]. simpl. intros e He.
    apply list_elem_of_singleton in He as ->. reflexivity.
Qed.

(** What a submission that passes leaves behind: the call is announced and
    its network trace is that of the service method. *)
Lemma passing_submission (env : Env) (props : Props)
    (rating : nat) (comment : string) :
  rating ≠ 0 → (10 ≤ String.length (trim comment))%nat →
  expected_call props rating comment
    ∈ ui (handleSubmit env props (submission rating comment)).2
  ∧ network (handleSubmit env props (submission rating comment)).2
    = (run env (expected_service_call props rating comment) []).2.
Proof.
  intros Hrating Hlong.
  unfold handleSubmit, expected_call, expected_service_call, submission.
  cbv beta iota zeta delta [rating_state comment_state].
  apply Nat.eqb_neq in Hrating. rewrite Hrating.
  assert (Hnot : (String.length (trim comment) <? 10)%nat = false)
    by (apply Nat.ltb_ge; exact Hlong).
  rewrite Hnot.
  unfold try_catch_finally, try_catch, bind, emit, effect, service, ret, run.
  destruct (existingReview props) as [existing |];
    cbn -[updateReview createReview trim];
    match goal with
    | |- context [updateReview env ?a ?b ?t] =>
        destruct (updateReview env a b t) as [[response | e] t']
    | |- context [createReview env ?a ?b ?t] =>
        destruct (createReview env a b t) as [[response | e] t']
    end; cbn -[trim]; (split; [set_solver | reflexivity]).
Qed.

(** C7, as stated, fails: a comment of length 10 that ends in blanks is
    trimmed to fewer than 10 characters and turned down, with a rating
    selected. *)
Lemma padded_comment_is_rejected :
  String.length padded_comment = 10
  ∧ rejected_client_side
      (handleSubmit member_env new_review (submission 5 padded_comment)).2
  ∧ ¬ accepted
      (handleSubmit member_env new_review (submission 5 padded_comment)).2.
Proof.
  split; [reflexivity |].
  assert (Hrejected : rejected_client_side
            (handleSubmit member_env new_review (submission 5 padded_comment)).2).
  { apply too_short_is_rejected. vm_compute. lia. }
  split; [exact Hrejected |].
  intros (e & He & Hcall). destruct Hrejected as [_ Hnone].
  rewrite (Hnone e He) in Hcall. discriminate Hcall.
Qed.

(** C7, amended: with a rating selected, a submission whose comment has
    length 9 is turned down before any service call, as is any comment
    whose trimmed length is below 10; a submission whose trimmed comment
    has length 10 or more calls [updateReview] (for an existing review) or
    [createReview] with the trimmed comment, and that call sends one
    request when a user is logged in. *)
Theorem review_comment_length_boundary (env : Env) (props : Props)
    (rating : nat) (comment : string) :
  rating ≠ 0 →
  (String.length comment = 9 →
     rejected_client_side (handleSubmit env props (submission rating comment)).2)
  ∧ ((String.length (trim comment) < 10)%nat →
     rejected_client_side (handleSubmit env props (submission rating comment)).2)
  ∧ ((10 ≤ String.length (trim comment))%nat →
     expected_call props rating comment
       ∈ ui (handleSubmit env props (submission rating comment)).2
     ∧ accepted (handleSubmit env props (submission rating comment)).2
     ∧ (truthy (current_user_id env) = true →
        ∃ request,
          http_requests
            (network (handleSubmit env props (submission rating comment)).2)
          = [request])).
Proof.
  intros Hrating. split; [| split].
  - intros Hnine. apply too_short_is_rejected.
    pose proof (length_trim comment). lia.
  - apply too_short_is_rejected.
  - intros Hlong.
    destruct (passing_submission env props rating comment Hrating Hlong)
      as (Hcall & Hnetwork).
    split; [exact Hcall |]. split.
    + exists (expected_call props rating comment). split; [exact Hcall |].
      unfold expected_call. destruct (existingReview props); reflexivity.
    + intros Huser. rewrite Hnetwork.
      apply run_sends_one_request, Huser.
Qed.

Lemma review_comment_length_boundary_witness :
  (5 ≠ 0 ∧ String.length "Buen bar." = 9
   ∧ rejected_client_side
       (handleSubmit member_env new_review (submission 5 "Buen bar.")).2)
  ∧ ((10 ≤ String.length (trim " Buen bar!! "))%nat
     ∧ truthy (current_user_id member_env) = true
     ∧ accepted
         (handleSubmit member_env new_review (submission 5 " Buen bar!! ")).2).
Proof.
  split.
  - split; [lia |]. split; [reflexivity |].
    apply (proj1 (review_comment_length_boundary
                    member_env new_review 5 "Buen bar." ltac:(lia))).
    reflexivity.
  - split; [vm_compute; lia |]. split; [reflexivity |].
    apply (proj2 (proj2 (review_comment_length_boundary
                           member_env new_review 5 " Buen bar!! " ltac:(lia)))).
    vm_compute. lia.
Defined.

End ReviewFacts.

(** * Further properties of the sources *)

(** ** The token store *)
Module TokenStoreFacts.

Import AuthService AuthContext.

(** On a store that accepts writes, a saved token is read back, a later
    save replaces it, and removing it leaves the store as if it had never
    been saved. *)
Theorem token_round_trip (t : string) (w : World) (st : Storage) :
  localStorage w = Some st → setItem_throws st = false →
  (saveToken t w).1 = true
  ∧ getToken (saveToken t w).2 = Some t
  ∧ (∀ t', getToken (saveToken t' (saveToken t w).2).2 = Some t')
  ∧ (removeToken (saveToken t w).2).1 = true
  ∧ getToken (removeToken (saveToken t w).2).2 = None
  ∧ (removeToken (saveToken t w).2).2 = (removeToken w).2.
Proof.
  intros Hst Hok. unfold saveToken, removeToken, getToken. rewrite Hst, Hok.
  simpl. rewrite Hok. simpl. unfold getItem, setItem, removeItem. simpl.
  repeat split.
  - apply lookup_insert_eq.
  - intros t'. apply lookup_insert_eq.
  - apply lookup_delete_eq.
  - rewrite delete_insert_eq. reflexivity.
Qed.

Lemma token_round_trip_witness :
  (localStorage Spec.browser
   = Some {| items := {[ TOKEN_STORAGE_KEY := "stale-token" ]};
             setItem_throws := false |})
  ∧ getToken (saveToken "jwt-9" Spec.browser).2 = Some "jwt-9".
Proof.
  split; [reflexivity |].
  apply (token_round_trip "jwt-9" Spec.browser _ eq_refl eq_refl).
Defined.

(** [saveToken] fails exactly when the store is missing or [setItem]
    throws, [removeToken] exactly when the store is missing; a failed call
    changes nothing, so a token saved earlier is still the one read. *)
Theorem token_store_failures (t : string) (w : World) :
  ((saveToken t w).1 = false
   ↔ localStorage w = None
     ∨ ∃ st, localStorage w = Some st ∧ setItem_throws st = true)
  ∧ ((saveToken t w).1 = false →
     (saveToken t w).2 = w ∧ getToken (saveToken t w).2 = getToken w)
  ∧ ((removeToken w).1 = false ↔ localStorage w = None)
  ∧ ((removeToken w).1 = false → (removeToken w).2 = w)
  ∧ (localStorage w = None → getToken w = None).
Proof.
  unfold saveToken, removeToken, getToken.
  destruct (localStorage w) as [st |] eqn:Hst; simpl.
  - destruct (setItem_throws st) eqn:Hthrows; simpl.
    + repeat split; try discriminate; eauto.
      rewrite Hst. reflexivity.
    + repeat split; try discriminate.
      intros [Hnone | (st' & Heq & Hthrows')]; [discriminate |].
      injection Heq as <-. congruence.
  - repeat split; eauto. rewrite Hst. reflexivity.
Qed.

Lemma token_store_failures_witness :
  (saveToken "jwt-9" {| localStorage := None; globalCurrentUser := None |}).1
  = false.
Proof.
  apply (proj1 (token_store_failures "jwt-9"
                  {| localStorage := None; globalCurrentUser := None |})).
  left. reflexivity.
Defined.

End TokenStoreFacts.

(** ** The reducer over histories *)
Module ReducerHistoryFacts.

Import AuthService AuthContext AuthProvider.

Lemma same_but_token_refl (w : World) : same_but_token w w.
Proof. unfold same_but_token. destruct (localStorage w); auto. Qed.

Lemma same_but_token_trans (w1 w2 w3 : World) :
  same_but_token w1 w2 → same_but_token w2 w3 → same_but_token w1 w3.
Proof.
  unfold same_but_token.
  destruct (localStorage w1), (localStorage w2), (localStorage w3);
    try tauto.
  intros [H1 H1'] [H2 H2']. split; [congruence |].
  intros k Hk. rewrite (H2' k Hk). apply (H1' k Hk).
Qed.

Lemma saveToken_same_but_token (t : string) (w : World) :
  same_but_token w (saveToken t w).2.
Proof.
  unfold same_but_token, saveToken.
  destruct (localStorage w) as [st |] eqn:Hst; simpl; [| rewrite Hst; exact I].
  destruct (setItem_throws st) eqn:Hthrows; simpl.
  - rewrite Hst. auto.
  - split; [exact Hthrows |]. intros k Hk.
    apply lookup_insert_ne. congruence.
Qed.

Lemma removeToken_same_but_token (w : World) :
  same_but_token w (removeToken w).2.
Proof.
  unfold same_but_token, removeToken.
  destruct (localStorage w) as [st |] eqn:Hst; simpl; [| rewrite Hst; exact I].
  split; [reflexivity |]. intros k Hk. apply lookup_delete_ne. congruence.
Qed.

Lemma set_globalCurrentUser_same_but_token (u : option User) (w : World) :
  same_but_token w (set_globalCurrentUser u w).
Proof. unfold same_but_token. simpl. destruct (localStorage w); auto. Qed.

Lemma authReducer_same_but_token state action w :
  same_but_token w (authReducer state action w).2.
Proof.
  destruct action; simpl;
    try apply same_but_token_refl;
    try apply set_globalCurrentUser_same_but_token;
    (eapply same_but_token_trans;
     [apply set_globalCurrentUser_same_but_token |]).
  - destruct payload_token as [[| c s] |]; try apply same_but_token_refl.
    apply saveToken_same_but_token.
  - apply removeToken_same_but_token.
  - apply removeToken_same_but_token.
Qed.

(** Whatever events are applied, the reducer leaves every entry of
    [localStorage] other than the token as it was; it never creates or
    loses the store itself. *)
Theorem reducer_touches_only_the_token
    (events : list AuthAction) (state : AuthState) (w : World) :
  same_but_token w (reduce_all events state w).2.
Proof.
  revert state w. induction events as [| action rest IH]; intros state w.
  - apply same_but_token_refl.
  - rewrite ReducerFacts.reduce_all_cons.
    eapply same_but_token_trans; [apply authReducer_same_but_token | apply IH].
Qed.

Lemma authReducer_mirrors_user state action w :
  globalCurrentUser w = user state →
  globalCurrentUser (authReducer state action w).2
  = user (authReducer state action w).1.
Proof.
  intros Hsame. destruct action; simpl; auto.
  - destruct payload_token as [[| c s] |]; try reflexivity.
    apply ProviderFacts.saveToken_globalCurrentUser.
  - rewrite ProviderFacts.removeToken_world. reflexivity.
  - rewrite ProviderFacts.removeToken_world. reflexivity.
Qed.

(** The module-level [globalCurrentUser] follows the session's user: if the
    two agree before a history of events, as they do when the module is
    loaded, they agree after it, so [getCurrentUserGlobal] and the
    context's [getCurrentUser] return the same user. *)
Theorem global_user_mirrors_session
    (events : list AuthAction) (p : Provider) :
  globalCurrentUser (world p) = user (state p) →
  getCurrentUserGlobal (reduce_all events (state p) (world p)).2
  = getCurrentUser
      {| state := (reduce_all events (state p) (world p)).1;
         world := (reduce_all events (state p) (world p)).2;
         AuthContext.events := AuthContext.events p |}.
Proof.
  unfold getCurrentUserGlobal, getCurrentUser. simpl.
  generalize (state p) as state, (world p) as w.
  induction events as [| action rest IH]; intros state w Hsame.
  - exact Hsame.
  - rewrite ReducerFacts.reduce_all_cons. apply IH.
    apply authReducer_mirrors_user, Hsame.
Qed.

Lemma global_user_mirrors_session_witness :
  globalCurrentUser (world (Spec.mounted Spec.browser))
  = user (state (Spec.mounted Spec.browser))
  ∧ getCurrentUserGlobal
      (reduce_all Spec.sample_history initialState Spec.browser).2
    = Some Spec.ana.
Proof.
  split; [reflexivity |].
  exact (eq_trans
           (global_user_mirrors_session Spec.sample_history
              (Spec.mounted Spec.browser) eq_refl)
           eq_refl).
Defined.

(** After any history the session's error is the message of the most
    recent known event when that event is an [AUTH_FAILURE], and none
    otherwise: every other known event clears it, unknown events keep it. *)
Theorem error_is_last_failure
    (events : list AuthAction) (state : AuthState) (w : World) :
  error (reduce_all events state w).1 =
  match last_known events with
  | Some (AUTH_FAILURE message) => Some message
  | Some _ => None
  | None => error state
  end.
Proof.
  revert state w. induction events as [| action rest IH]; intros state w.
  - reflexivity.
  - rewrite ReducerFacts.reduce_all_cons, IH. simpl.
    destruct (last_known rest) as [later |]; [reflexivity |].
    destruct action; reflexivity.
Qed.

(** After any history [isLoading] holds exactly when no settling event has
    followed the most recent [AUTH_START] (or, with neither in the history,
    when it held before). *)
Theorem isLoading_since_last_start
    (events : list AuthAction) (state : AuthState) (w : World) :
  isLoading (reduce_all events state w).1 =
  match last_loading_event events with
  | Some AUTH_START => true
  | Some _ => false
  | None => isLoading state
  end.
Proof.
  revert state w. induction events as [| action rest IH]; intros state w.
  - reflexivity.
  - rewrite ReducerFacts.reduce_all_cons, IH. simpl.
    destruct (last_loading_event rest) as [later |]; [reflexivity |].
    destruct action; reflexivity.
Qed.

(** Running the reducer a second time on the same action changes neither
    the session nor the world: its side effects on the token and on
    [globalCurrentUser] are idempotent. *)
Theorem authReducer_idempotent state action w :
  authReducer (authReducer state action w).1 action
              (authReducer state action w).2
  = authReducer state action w.
Proof.
  destruct action; simpl; try reflexivity.
  - f_equal. destruct payload_token as [[| c s] |]; try reflexivity.
    destruct w as [[[m throws] |] g]; simpl; [| reflexivity].
    unfold saveToken, set_globalCurrentUser. simpl.
    destruct throws; simpl; [reflexivity |].
    unfold setItem. simpl. rewrite insert_insert_eq. reflexivity.
  - f_equal. destruct w as [[[m throws] |] g]; simpl; [| reflexivity].
    unfold removeItem. simpl. rewrite delete_delete_eq. reflexivity.
  - f_equal. destruct w as [[[m throws] |] g]; simpl; [| reflexivity].
    unfold removeItem. simpl. rewrite delete_delete_eq. reflexivity.
Qed.

End ReducerHistoryFacts.

(** ** The other operations of the provider *)
Module ProviderMoreFacts.

Import AuthService AuthContext AuthProvider Spec.

Ltac run_session :=
  unfold register, updateProfile, changePassword, refreshUser,
    try_catch, bind, ret, throw, send_action, await_remote, dispatch, effect;
  simpl.

(** [register] follows the contract of [login]: it always resolves; a
    successful response carrying a user authenticates the session as that
    user, a failing response leaves the session unauthenticated with the
    response's message (or 'Error en el registro'), and a thrown error
    resolves to a response with [success = false] and leaves 'Error durante
    el registro' in the session. *)
Theorem register_always_resolves
    (authService : AuthRemote.Remote) (userData : AuthRemote.RegisterData)
    (s : Session) :
  ∃ response s',
    register authService userData s = (Resolved response, s')
    ∧ calls s' = (calls s ++ [AuthRemote.call_register userData])%list
    ∧ (∀ r u,
         AuthRemote.register authService userData = Resolved r →
         success r = true → AuthService.user r = Some u →
         response = r ∧ state (provider s') = authenticated_as u)
    ∧ (∀ r,
         AuthRemote.register authService userData = Resolved r →
         carries_user r = false →
         response = r
         ∧ state (provider s')
           = failed_with (or_else (message r) "Error en el registro")
         ∧ getToken (world (provider s')) = None)
    ∧ (∀ e,
         AuthRemote.register authService userData = Rejected e →
         response = {| success := false; AuthService.user := None;
                       token := None;
                       message := Some "Error durante el registro" |}
         ∧ state (provider s') = failed_with "Error durante el registro"
         ∧ getToken (world (provider s')) = None).
Proof.
  run_session.
  pose proof (ProviderFacts.cleared_spec
                (world (provider s))) as (Htoken & _ & _).
  destruct (AuthRemote.register authService userData) as [r | e]; simpl.
  - destruct (success r) eqn:Hsuccess,
             (AuthService.user r) as [u |] eqn:Huser; simpl;
      (eexists; eexists; split; [reflexivity |]; simpl;
       split; [reflexivity |]; split; [| split];
       [ intros r0 u0 [= <-] Hs Hu0;
         try (rewrite Huser in Hu0; injection Hu0 as <-; split; reflexivity);
         congruence
       | intros r0 [= <-] Hno; unfold carries_user in Hno;
         rewrite Hsuccess, ?Huser in Hno;
         first [ discriminate Hno
               | split; [reflexivity |]; split; [reflexivity | exact Htoken] ]
       | intros e [=] ]).
  - eexists; eexists; split; [reflexivity |]. simpl.
    split; [reflexivity |]. split; [| split].
    + intros r u [=].
    + intros r [=].
    + intros e' _. split; [reflexivity |]. split; [reflexivity | exact Htoken].
Qed.

Lemma register_always_resolves_witness :
  AuthRemote.register remote_up new_account
  = Resolved {| success := true; AuthService.user := Some ana;
                token := Some "jwt-3"; message := None |}
  ∧ state (provider (register remote_up new_account
                       (fresh (mounted browser))).2)
    = authenticated_as ana.
Proof.
  split; [reflexivity |].
  destruct (register_always_resolves remote_up new_account
              (fresh (mounted browser)))
    as (response & s' & Hrun & _ & Hsuccess & _).
  rewrite Hrun. apply (Hsuccess _ ana eq_refl eq_refl eq_refl).
Defined.

(** [updateProfile] always resolves and makes one remote call.  It never
    changes [isAuthenticated], [isLoading] or the token store.  On a
    successful response carrying a user the session takes that user and
    drops its error; on any other outcome the provider is left exactly as it
    was (no error is recorded), a thrown error resolving to a response with
    [success = false]. *)
Theorem updateProfile_keeps_authentication
    (authService : AuthRemote.Remote)
    (profileData : AuthRemote.UpdateProfileData) (s : Session) :
  ∃ response s',
    updateProfile authService profileData s = (Resolved response, s')
    ∧ calls s' = (calls s ++ [AuthRemote.call_updateProfile profileData])%list
    ∧ isAuthenticated (state (provider s'))
      = isAuthenticated (state (provider s))
    ∧ isLoading (state (provider s')) = isLoading (state (provider s))
    ∧ localStorage (world (provider s')) = localStorage (world (provider s))
    ∧ (∀ r u,
         AuthRemote.updateProfile authService profileData = Resolved r →
         success r = true → AuthService.user r = Some u →
         response = r
         ∧ user (state (provider s')) = Some u
         ∧ error (state (provider s')) = None
         ∧ globalCurrentUser (world (provider s')) = Some u)
    ∧ (failed (AuthRemote.updateProfile authService profileData) →
       provider s' = provider s)
    ∧ (∀ e,
         AuthRemote.updateProfile authService profileData = Rejected e →
         response = {| success := false; AuthService.user := None;
                       token := None;
                       message := Some "Error al actualizar perfil" |}).
Proof.
  run_session. destruct s as [[st w ev] cs]. simpl.
  destruct (AuthRemote.updateProfile authService profileData) as [r | e];
    simpl.
  - destruct (success r) eqn:Hsuccess,
             (AuthService.user r) as [u |] eqn:Huser; simpl;
      (eexists; eexists; split; [reflexivity |]; simpl;
       repeat (split; [reflexivity |]); split; [| split];
       [ intros r0 u0 [= <-] Hs Hu0;
         try (rewrite Huser in Hu0; injection Hu0 as <-;
              repeat split; reflexivity);
         congruence
       | unfold carries_user; rewrite Hsuccess, ?Huser;
         try discriminate; reflexivity
       | intros e [=] ]).
  - eexists; eexists; split; [reflexivity |]. simpl.
    repeat (split; [reflexivity |]). split; [| split].
    + intros r u [=].
    + reflexivity.
    + reflexivity.
Qed.

Lemma updateProfile_keeps_authentication_witness :
  failed (AuthRemote.updateProfile remote_refusing
            {| AuthRemote.changes := [("name", "")] |})
  ∧ provider (updateProfile remote_refusing
                {| AuthRemote.changes := [("name", "")] |}
                (fresh logged_in)).2
    = logged_in.
Proof.
  split; [reflexivity |].
  destruct (updateProfile_keeps_authentication remote_refusing
              {| AuthRemote.changes := [("name", "")] |} (fresh logged_in))
    as (response & s' & Hrun & _ & _ & _ & _ & _ & Hfailed & _).
  rewrite Hrun. apply Hfailed. reflexivity.
Defined.

(** [changePassword] always resolves, makes one remote call and leaves the
    provider (session, token store, dispatched actions) exactly as it was,
    whatever the remote answer; a thrown error resolves to a response with
    [success = false]. *)
Theorem changePassword_leaves_session
    (authService : AuthRemote.Remote)
    (passwordData : AuthRemote.ChangePasswordData) (s : Session) :
  ∃ response,
    changePassword authService passwordData s
    = (Resolved response,
       {| provider := provider s;
          calls := calls s ++ [AuthRemote.call_changePassword passwordData] |})
    ∧ match AuthRemote.changePassword authService passwordData with
      | Resolved r => response = r
      | Rejected _ =>
          response = {| success := false; AuthService.user := None;
                        token := None; message := Some MSG_PASSWORD_FAILED |}
      end.
Proof.
  run_session.
  destruct (AuthRemote.changePassword authService passwordData) as [r | e];
    simpl; eexists; split; reflexivity.
Qed.

(** [refreshUser] always resolves.  When the profile request succeeds with a
    user, the session takes that user and keeps [isAuthenticated] and
    [isLoading]; on every other outcome, a thrown error included, the
    provider is left exactly as it was. *)
Theorem refreshUser_only_updates_user
    (authService : AuthRemote.Remote) (s : Session) :
  ∃ s',
    refreshUser authService s = (Resolved tt, s')
    ∧ isAuthenticated (state (provider s'))
      = isAuthenticated (state (provider s))
    ∧ isLoading (state (provider s')) = isLoading (state (provider s))
    ∧ localStorage (world (provider s')) = localStorage (world (provider s))
    ∧ (∀ r u,
         AuthRemote.getProfile authService = Resolved r →
         success r = true → AuthService.user r = Some u →
         user (state (provider s')) = Some u
         ∧ error (state (provider s')) = None)
    ∧ (failed (AuthRemote.getProfile authService) → provider s' = provider s).
Proof.
  run_session. destruct s as [[st w ev] cs]. simpl.
  destruct (AuthRemote.getProfile authService) as [r | e]; simpl.
  - destruct (success r) eqn:Hsuccess,
             (AuthService.user r) as [u |] eqn:Huser; simpl;
      (eexists; split; [reflexivity |]; simpl;
       repeat (split; [reflexivity |]); split;
       [ intros r0 u0 [= <-] Hs Hu0;
         try (rewrite Huser in Hu0; injection Hu0 as <-; split; reflexivity);
         congruence
       | unfold carries_user; rewrite Hsuccess, ?Huser;
         try discriminate; reflexivity ]).
  - eexists; split; [reflexivity |]. simpl.
    repeat (split; [reflexivity |]). split; [intros r u [=] | reflexivity].
Qed.

Lemma refreshUser_only_updates_user_witness :
  AuthRemote.getProfile remote_up
  = Resolved {| success := true; AuthService.user := Some ana_renamed;
                token := None; message := None |}
  ∧ user (state (provider (refreshUser remote_up (fresh logged_in)).2))
    = Some ana_renamed.
Proof.
  split; [reflexivity |].
  destruct (refreshUser_only_updates_user remote_up (fresh logged_in))
    as (s' & Hrun & _ & _ & _ & Hsuccess & _).
  rewrite Hrun. apply (Hsuccess _ ana_renamed eq_refl eq_refl eq_refl).
Defined.

End ProviderMoreFacts.

(** ** Start-up *)
Module StartupFacts.

Import AuthService AuthContext Spec.
Import AuthProvider(server_valid, server_broken).

(** Whatever [authService] does, [checkExistingAuth] resolves and leaves a
    settled session ([isLoading] false); the session is authenticated
    exactly when a token is on record and its validation answers with
    success and a user. *)
Theorem startup_always_settles (authService : Behaviour) (p : Provider) :
  ∃ p',
    checkExistingAuth authService p = (Resolved tt, p')
    ∧ isLoading (state p') = false
    ∧ (isAuthenticated (state p') = true
       ↔ hasToken authService = Resolved true
         ∧ ∃ r, validateToken authService = Resolved r
                ∧ carries_user r = true).
Proof.
  ProviderFacts.run_prog.
  destruct (hasToken authService) as [[|] | e]; simpl.
  - destruct (validateToken authService) as [r | e]; simpl.
    + destruct (success r) eqn:Hsuccess,
               (AuthService.user r) as [u |] eqn:Huser; simpl;
        (eexists; split; [reflexivity |]; simpl; split; [reflexivity |]);
        (split;
         [ intros Hauth;
           first [ discriminate Hauth
                 | split; [reflexivity |]; exists r; split; [reflexivity |];
                   unfold carries_user; rewrite Hsuccess, ?Huser; reflexivity ]
         | intros (_ & r0 & Heq & Hc); injection Heq as <-;
           unfold carries_user in Hc; rewrite Hsuccess, ?Huser in Hc;
           first [ discriminate Hc | reflexivity ] ]).
    + eexists; split; [reflexivity |]. simpl. split; [reflexivity |].
      split; [discriminate |]. intros (_ & r & [=] & _).
  - eexists; split; [reflexivity |]. simpl. split; [reflexivity |].
    split; [discriminate |]. intros ([=] & _).
  - eexists; split; [reflexivity |]. simpl. split; [reflexivity |].
    split; [discriminate |]. intros ([=] & _).
Qed.

(** A token that validates authenticates the session as the user of the
    response and leaves the token store as it was: a token sent back by the
    validation is not saved. *)
Theorem startup_valid_token_keeps_store
    (authService : Behaviour) (p : Provider) (r : AuthResponse) (u : User) :
  hasToken authService = Resolved true →
  validateToken authService = Resolved r →
  success r = true → AuthService.user r = Some u →
  checkExistingAuth authService p
  = (Resolved tt,
     {| state := authenticated_as u;
        world := set_globalCurrentUser (Some u) (world p);
        events := (events p ++ [Dispatched AUTH_START; Called call_hasToken;
                                Called call_validateToken;
                                Dispatched (AUTH_SUCCESS u None)])%list |}).
Proof.
  intros Hhas Hvalid Hsuccess Huser. ProviderFacts.run_prog.
  rewrite Hhas. simpl. rewrite Hvalid. simpl. rewrite Hsuccess, Huser. simpl.
  rewrite <- !app_assoc. reflexivity.
Qed.

Lemma startup_valid_token_keeps_store_witness :
  getToken
    (world (checkExistingAuth server_valid (mounted browser)).2)
  = Some "stale-token".
Proof.
  rewrite (startup_valid_token_keeps_store server_valid (mounted browser)
             _ ana eq_refl eq_refl eq_refl eq_refl).
  reflexivity.
Defined.

(** When the check for a stored token itself throws, the session fails
    with 'Error al verificar autenticación', the token is removed and the
    validation endpoint is not contacted. *)
Theorem startup_token_check_throws
    (authService : Behaviour) (p : Provider) (e : JsError) :
  hasToken authService = Rejected e →
  ∃ p',
    checkExistingAuth authService p = (Resolved tt, p')
    ∧ state p' = failed_with MSG_CHECK_FAILED
    ∧ getToken (world p') = None
    ∧ events p'
      = (events p ++ [Dispatched AUTH_START; Called call_hasToken;
                      Dispatched (AUTH_FAILURE MSG_CHECK_FAILED)])%list.
Proof.
  intros Hthrows. ProviderFacts.run_prog. rewrite Hthrows. simpl.
  eexists; split; [reflexivity |]. simpl.
  split; [reflexivity |]. split.
  - apply (ProviderFacts.cleared_spec (world p)).
  - rewrite <- !app_assoc. reflexivity.
Qed.

Lemma startup_token_check_throws_witness :
  state (checkExistingAuth server_broken (mounted browser)).2
  = failed_with MSG_CHECK_FAILED.
Proof.
  destruct (startup_token_check_throws server_broken (mounted browser)
              (TypeError "storage") eq_refl)
    as (p' & Hrun & Hstate & _).
  rewrite Hrun. exact Hstate.
Defined.

End StartupFacts.

(** ** The access guard *)
Module AccessGuardFacts.

Import AuthService AuthContext AccessGuard.

Lemma children_iff (props : Props) (auth : AuthState) :
  BusinessProtectedRoute props auth = Children
  ↔ isLoading auth = false ∧ isAuthenticated auth = true
    ∧ ∃ u, user auth = Some u ∧ accountType u = business.
Proof.
  unfold BusinessProtectedRoute.
  destruct (isLoading auth), (isAuthenticated auth),
    (user auth) as [u |]; simpl; try (split; [discriminate |]);
    try (intros (? & ? & ?); discriminate);
    try (intros (_ & _ & u0 & Hu & _); discriminate Hu).
  destruct (accountType u) eqn:Hty; split; try discriminate; eauto.
  intros (_ & _ & u0 & [= <-] & Hb). congruence.
Qed.

(** After any history of reducer events from the initial state, the guard
    renders the protected content only if the most recent settling event is
    an [AUTH_SUCCESS], no operation is pending, and the session's user has a
    business account. *)
Theorem guard_shows_children_only_after_success
    (props : Props) (events : list AuthAction) (w : World) :
  BusinessProtectedRoute props (reduce_all events initialState w).1 = Children →
  (∃ u t, Spec.last_settling events = Some (AUTH_SUCCESS u t))
  ∧ isLoading (reduce_all events initialState w).1 = false
  ∧ ∃ u, user (reduce_all events initialState w).1 = Some u
         ∧ accountType u = business.
Proof.
  intros Hview. apply children_iff in Hview as (Hloading & Hauth & Huser).
  split; [| split; assumption].
  rewrite ReducerFacts.reduce_all_isAuthenticated in Hauth.
  destruct (Spec.last_settling events) as [[] |]; simpl in Hauth;
    try discriminate; eauto.
Qed.

Lemma guard_shows_children_only_after_success_witness :
  BusinessProtectedRoute default_props
    (reduce_all [AUTH_START; AUTH_SUCCESS owner (Some "jwt-7")]
       initialState Spec.browser).1 = Children
  ∧ ∃ u t, Spec.last_settling [AUTH_START; AUTH_SUCCESS owner (Some "jwt-7")]
           = Some (AUTH_SUCCESS u t).
Proof.
  split; [reflexivity |].
  apply (guard_shows_children_only_after_success default_props
           [AUTH_START; AUTH_SUCCESS owner (Some "jwt-7")] Spec.browser).
  reflexivity.
Defined.

(** Right after [AUTH_START] the guard shows the verification view, even
    for a logged-in business user; right after [AUTH_LOGOUT],
    [AUTH_FAILURE] or [AUTH_COMPLETE_WITHOUT_USER] it shows the access
    denied view; and a user without a business account never sees the
    protected content. *)
Theorem guard_follows_the_session
    (props : Props) (state : AuthState) (w : World) :
  BusinessProtectedRoute props (authReducer state AUTH_START w).1
  = VerifyingAccess
  ∧ BusinessProtectedRoute props (authReducer state AUTH_LOGOUT w).1
    = AccessDenied
  ∧ (∀ message,
       BusinessProtectedRoute props
         (authReducer state (AUTH_FAILURE message) w).1 = AccessDenied)
  ∧ BusinessProtectedRoute props
      (authReducer state AUTH_COMPLETE_WITHOUT_USER w).1 = AccessDenied
  ∧ (∀ u t,
       BusinessProtectedRoute props (authReducer state (AUTH_SUCCESS u t) w).1
       = match accountType u with
         | business => Children
         | other =>
             BusinessRequired
               (default DEFAULT_FALLBACK_MESSAGE (fallbackMessage props))
               (if default true (showUpgradeOption props)
                then Some other else None)
         end).
Proof. repeat split. Qed.

End AccessGuardFacts.

(** ** The read-only methods of the bar service *)
Module BarQueryFacts.

Import AuthService BarService BarQueries.

Ltac run_query_tac :=
  unfold run_query, allBars, getBarById, getMenuByBarId, getFoodByBarId,
    getDrinksByBarId, getAlcoholByBarId, getEventsByBarId, getReviewsByBarId,
    getBarReviewStats, getAllEvents, getEventById, getMyProfile, getFavorites,
    get_or_handle, getMenuItemById, getUserReviewCount, getUserReviews,
    HandleLoginError, try_catch, bind, ret, throw, send;
  simpl.

Lemma http_requests_app (t t' : Trace) :
  http_requests (t ++ t')%list
  = (http_requests t ++ http_requests t')%list.
Proof. unfold http_requests. apply omap_app. Qed.

(** The read-only methods need no logged-in user and send exactly one GET
    request, to the URL of the method.  A response is returned as it is; a
    failure is thrown again as it is (no message is extracted from the
    body) once [HandleLoginError] has seen it, [getEventById] not even
    calling the helper. *)
Theorem queries_send_one_request_and_rethrow
    (env : Env) (q : Query) (t : Trace) :
  http_requests (run_query env q t).2
  = (http_requests t ++ [query_request q])%list
  ∧ (∀ response,
       api env (query_request q) = Resolved response →
       run_query env q t
       = (Resolved response, (t ++ [Http (query_request q)])%list))
  ∧ (∀ error,
       api env (query_request q) = Rejected error →
       handler_throws env error = None →
       (run_query env q t).1 = Rejected error)
  ∧ (∀ id error,
       q = q_getEventById id →
       api env (query_request q) = Rejected error →
       run_query env q t
       = (Rejected error, (t ++ [Http (query_request q)])%list)).
Proof.
  unfold query_request.
  split; [| split; [| split]].
  - destruct q; run_query_tac;
      match goal with
      | |- context [api env ?r] => destruct (api env r) as [response | e]
      end; simpl;
      try destruct (handler_throws env e); simpl;
      rewrite ?http_requests_app, ?app_nil_r;
      rewrite ?http_requests_app; simpl; rewrite ?app_nil_r; reflexivity.
  - intros response Hok. destruct q; run_query_tac; simpl in Hok;
      rewrite Hok; reflexivity.
  - intros error Hfail Hreturns.
    destruct q; run_query_tac; simpl in Hfail; rewrite Hfail; simpl;
      rewrite ?Hreturns; reflexivity.
  - intros id error -> Hfail. run_query_tac. simpl in Hfail.
    rewrite Hfail. reflexivity.
Qed.

Lemma queries_send_one_request_and_rethrow_witness :
  api missing_env (query_request (q_getBarById "bar-404"))
  = missing_api (query_request (q_getBarById "bar-404"))
  ∧ (run_query missing_env (q_getBarById "bar-404") []).1
    = Rejected (AxiosError "Request failed with status code 404"
                  (Some {| response_status := 404;
                           response_data :=
                             Some {| data_message := Some "No encontrado" |} |})).
Proof.
  split; [reflexivity |].
  apply (proj1 (proj2 (proj2 (queries_send_one_request_and_rethrow
                                missing_env (q_getBarById "bar-404") []))));
    reflexivity.
Defined.

(** [getMenuItemById] returns the body of the response; an axios error with
    status 404 becomes the error 'Menu item not found', and every other
    failure is thrown again unchanged. *)
Theorem getMenuItemById_maps_404 (env : Env) (barId itemId : string)
    (t : Trace) :
  let request := {| method := GET;
                    url := "/bars/" ++ barId ++ "/menu/" ++ itemId;
                    body := None |} in
  (∀ response,
     api env request = Resolved response →
     getMenuItemById env barId itemId t
     = (Resolved (data response), (t ++ [Http request])%list))
  ∧ (∀ message response,
       api env request = Rejected (AxiosError message (Some response)) →
       response_status response = 404 →
       getMenuItemById env barId itemId t
       = (Rejected (Error "Menu item not found"), (t ++ [Http request])%list))
  ∧ (∀ error,
       api env request = Rejected error →
       (∀ message response,
          error = AxiosError message (Some response) →
          response_status response ≠ 404) →
       getMenuItemById env barId itemId t
       = (Rejected error, (t ++ [Http request])%list)).
Proof.
  simpl. split; [| split].
  - intros response Hok. run_query_tac. rewrite Hok. reflexivity.
  - intros message response Hfail Hstatus. run_query_tac.
    rewrite Hfail. simpl. rewrite Hstatus. reflexivity.
  - intros error Hfail Hother. run_query_tac. rewrite Hfail. simpl.
    destruct error as [m | m | m [response |]]; try reflexivity.
    destruct (response_status response =? 404)%nat eqn:Hstatus;
      [| reflexivity].
    apply Nat.eqb_eq in Hstatus.
    exfalso. exact (Hother m response eq_refl Hstatus).
Qed.

Lemma getMenuItemById_maps_404_witness :
  (getMenuItemById missing_env "bar-1" "item-9" []).1
  = Rejected (Error "Menu item not found").
Proof.
  rewrite (proj1 (proj2 (getMenuItemById_maps_404
                           missing_env "bar-1" "item-9" []))
             "Request failed with status code 404"
             {| response_status := 404;
                response_data :=
                  Some {| data_message := Some "No encontrado" |} |}
             eq_refl eq_refl).
  reflexivity.
Defined.

End BarQueryFacts.

(** ** Requests and results of the identity-bound methods *)
Module BarRequestFacts.

Import AuthService BarService BarSpec BarQueries.

Ltac run_any :=
  unfold trace_after, run, createReview, updateReview, deleteReview,
    addBarToFavorites, removeBarFromFavorites, checkUserReview, isBarFavorite,
    normalize_or_handle, getMenuItemById, getUserReviewCount, getUserReviews,
    HandleLoginError, try_catch, bind, ret, throw, send, get_property;
  simpl.

Ltac case_api :=
  match goal with
  | |- context [api ?env ?r] =>
      let response := fresh "response" in
      let e := fresh "e" in
      destruct (api env r) as [response | e]; simpl
  end.

Ltac case_handler :=
  match goal with
  | |- context [handler_throws ?env ?x] =>
      destruct (handler_throws env x); simpl
  end.

Ltac one_or_none :=
  rewrite ?BarQueryFacts.http_requests_app; simpl; rewrite ?app_nil_r;
  first [ exists []; split; [rewrite ?app_nil_r; reflexivity | simpl; lia]
        | eexists [_]; split; [reflexivity | simpl; lia] ].

Ltac crunch :=
  repeat first
    [ one_or_none
    | case_api
    | match goal with
      | |- context [isAxiosError ?e] => destruct e; simpl
      | |- context [(response_status ?r =? 404)%nat] =>
          destruct (response_status r =? 404)%nat; simpl
      | |- context [match ?e with Error _ => _ | _ => _ end] =>
          destruct e as [? | ? | ? [? |]]; simpl
      end
    | case_handler ].

(** No method retries or batches: a call adds at most one request to the
    trace, whatever the server answers and whoever is logged in. *)
Theorem every_call_sends_at_most_one_request
    (env : Env) (call : AnyCall) (t : Trace) :
  ∃ sent,
    http_requests (trace_after env call t)
    = (http_requests t ++ sent)%list
    ∧ (length sent ≤ 1)%nat.
Proof.
  destruct call as [c | q | barId itemId | userId | userId | barId | barId].
  - destruct c; run_any;
      destruct (current_user_id env) as [[| ch s] |]; simpl; crunch.
  - exists [query_request q]. split; [| simpl; lia].
    apply BarQueryFacts.queries_send_one_request_and_rethrow.
  - run_any. crunch.
  - run_any.
    destruct (if truthy userId then userId else current_user_id env)
      as [[| ch s] |]; simpl; crunch.
  - run_any.
    destruct (if truthy userId then userId else current_user_id env)
      as [[| ch s] |]; simpl; crunch.
  - run_any. destruct (current_user_id env) as [[| ch s] |]; simpl; crunch.
  - run_any. destruct (current_user_id env) as [[| ch s] |]; simpl; crunch.
    destruct (data response); simpl; one_or_none.
Qed.

(** A user id passed to [getUserReviewCount] or [getUserReviews] takes
    precedence over the logged-in user and makes the call work without one:
    the request goes to that user's URL and the response is returned. *)
Theorem explicit_user_id_takes_precedence
    (env : Env) (userId : string) (t : Trace) :
  userId ≠ "" →
  (∀ response,
     api env {| method := GET; url := "/users/" ++ userId ++ "/reviews/count";
                body := None |} = Resolved response →
     getUserReviewCount env (Some userId) t
     = (Resolved response,
        (t ++ [Http {| method := GET;
                       url := "/users/" ++ userId ++ "/reviews/count";
                       body := None |}])%list))
  ∧ (∀ response,
       api env {| method := GET; url := "/users/" ++ userId ++ "/reviews";
                  body := None |} = Resolved response →
       getUserReviews env (Some userId) t
       = (Resolved response,
          (t ++ [Http {| method := GET;
                         url := "/users/" ++ userId ++ "/reviews";
                         body := None |}])%list)).
Proof.
  intros Hne. destruct userId as [| ch s]; [congruence |].
  split; intros response Hok; run_any; rewrite Hok; reflexivity.
Qed.

Lemma explicit_user_id_takes_precedence_witness :
  "u-99" ≠ ""
  ∧ current_user_id visitor_env = None
  ∧ (getUserReviews visitor_env (Some "u-99") []).1
    = Resolved {| status := 200; data := JsObject [] |}.
Proof.
  split; [discriminate |]. split; [reflexivity |].
  rewrite (proj2 (explicit_user_id_takes_precedence visitor_env "u-99" []
                    ltac:(discriminate)) _ eq_refl).
  reflexivity.
Defined.

(** For a logged-in user [isBarFavorite] returns the [isFavorite] field of
    the body, [undefined] when the body is an object without that field;
    a [null] or missing body, on which reading the field throws, gives
    [false] like any failed request. *)
Theorem isBarFavorite_reads_the_body
    (env : Env) (userId barId : string) (t : Trace)
    (response : AxiosResponse) :
  current_user_id env = Some userId → userId ≠ "" →
  api env (check_favorite_request userId barId) = Resolved response →
  (isBarFavorite env barId t).2
  = (t ++ [Http (check_favorite_request userId barId)])%list
  ∧ (isBarFavorite env barId t).1
    = Resolved match data response with
               | JsObject fields => default JsUndefined (assoc "isFavorite" fields)
               | JsUndefined | JsNull => JsBool false
               | _ => JsUndefined
               end.
Proof.
  intros Hid Hne Hok. destruct userId as [| ch s]; [congruence |].
  unfold check_favorite_request in Hok. run_any. rewrite Hid. simpl.
  rewrite Hok. simpl. destruct (data response); split; reflexivity.
Qed.

Lemma isBarFavorite_reads_the_body_witness :
  current_user_id empty_body_env = Some "u-17"
  ∧ (isBarFavorite empty_body_env "bar-1" []).1 = Resolved (JsBool false).
Proof.
  split; [reflexivity |].
  rewrite (proj2 (isBarFavorite_reads_the_body empty_body_env "u-17" "bar-1" []
                    _ eq_refl ltac:(discriminate) eq_refl)).
  reflexivity.
Defined.

(** [removeBarFromFavorites] has no [catch] block: the error of a failed
    request reaches the caller as it is, body message unread, unlike the
    one of [addBarToFavorites]. *)
Theorem removeBarFromFavorites_throws_raw
    (env : Env) (userId barId : string) (t : Trace) (error : JsError) :
  current_user_id env = Some userId → userId ≠ "" →
  api env (request_of userId (to_removeBarFromFavorites barId))
    = Rejected error →
  removeBarFromFavorites env barId t
  = (Rejected error,
     (t ++ [Http (request_of userId (to_removeBarFromFavorites barId))])%list).
Proof.
  intros Hid Hne Hfail. destruct userId as [| ch s]; [congruence |].
  run_any. rewrite Hid. simpl. simpl in Hfail. rewrite Hfail. reflexivity.
Qed.

Lemma removeBarFromFavorites_throws_raw_witness :
  (removeBarFromFavorites refused_env "bar-1" []).1
  = refusing_api (request_of "u-17" (to_removeBarFromFavorites "bar-1")).
Proof.
  rewrite (removeBarFromFavorites_throws_raw refused_env "u-17" "bar-1" [] _
             eq_refl ltac:(discriminate) eq_refl).
  reflexivity.
Defined.

End BarRequestFacts.

(** ** The review modal: outcomes of a submission and the delete flow *)
Module ReviewFlowFacts.

Import BarService BarSpec ReviewModal ReviewModalHandlers.

(** A submission that passes the checks switches the loading flag on and,
    whatever the service does, off again at the end.  When the service
    call succeeds the user is thanked, the form is reset and the parent is
    notified and asked to close, in that order; when it fails the user is
    shown the message of the error and nothing else happens: the form
    keeps its content and the modal stays open. *)
Theorem submission_outcome (env : Env) (props : Props)
    (rating : nat) (comment : string) :
  rating ≠ 0 → (10 ≤ String.length (trim comment))%nat →
  ui (handleSubmit env props (submission rating comment)).2 =
  match (run env (expected_service_call props rating comment) []).1 with
  | Resolved _ =>
      [ setLoading true; expected_call props rating comment;
        Alert "Success"
          (match existingReview props with
           | Some _ => "Your review has been updated!"
           | None => "Thank you for your review!"
           end);
        setRating 0; setComment ""; onReviewSubmitted; onClose;
        setLoading false ]
  | Rejected error =>
      [ setLoading true; expected_call props rating comment;
        Alert "Error" (error_message error); setLoading false ]
  end.
Proof.
  intros Hrating Hlong.
  unfold handleSubmit, expected_call, expected_service_call, submission.
  cbv beta iota zeta delta [rating_state comment_state].
  apply Nat.eqb_neq in Hrating. rewrite Hrating.
  assert (Hnot : (String.length (trim comment) <? 10)%nat = false)
    by (apply Nat.ltb_ge; exact Hlong).
  rewrite Hnot.
  unfold try_catch_finally, try_catch, bind, emit, effect, service, ret, run.
  destruct (existingReview props) as [existing |];
    cbn -[updateReview createReview trim];
    match goal with
    | |- context [updateReview env ?a ?b ?t] =>
        destruct (updateReview env a b t) as [[response | e] t']
    | |- context [createReview env ?a ?b ?t] =>
        destruct (createReview env a b t) as [[response | e] t']
    end; reflexivity.
Qed.

Lemma submission_outcome_witness :
  (5 ≠ 0 ∧ (10 ≤ String.length (trim "Muy buen lugar"))%nat)
  ∧ ui (handleSubmit visitor_env new_review (submission 5 "Muy buen lugar")).2
    = [ setLoading true;
        expected_call new_review 5 "Muy buen lugar";
        Alert "Error" "User not authenticated"; setLoading false ].
Proof.
  split; [split; [lia | vm_compute; lia] |].
  rewrite (submission_outcome visitor_env new_review 5 "Muy buen lugar"
             ltac:(lia) ltac:(vm_compute; lia)).
  reflexivity.
Defined.

Lemma no_rating_is_rejected (env : Env) (props : Props) (comment : string) :
  rejected_client_side (handleSubmit env props (submission 0 comment)).2.
Proof.
  unfold handleSubmit, submission. simpl.
  split; [reflexivity |]. simpl. intros e He.
  apply list_elem_of_singleton in He as ->. reflexivity.
Qed.

(** The submit button and the handler agree: with no request in flight the
    button is enabled exactly when [handleSubmit] goes through to the
    service, and a submission made while the button would be disabled for
    its content is turned down before any service call. *)
Theorem submit_button_matches_handler (env : Env) (props : Props)
    (rating : nat) (comment : string) :
  (submit_disabled false rating comment = false
   ↔ accepted (handleSubmit env props (submission rating comment)).2)
  ∧ (submit_disabled false rating comment = true →
     rejected_client_side
       (handleSubmit env props (submission rating comment)).2).
Proof.
  assert (Hrejected :
    submit_disabled false rating comment = true →
    rejected_client_side (handleSubmit env props (submission rating comment)).2).
  { unfold submit_disabled. simpl. intros Hdisabled.
    apply orb_true_iff in Hdisabled as [Hzero | Hshort].
    - apply Nat.eqb_eq in Hzero as ->. apply no_rating_is_rejected.
    - apply ReviewFacts.too_short_is_rejected. apply Nat.ltb_lt. exact Hshort. }
  split; [| exact Hrejected].
  split.
  - unfold submit_disabled. simpl. intros Henabled.
    apply orb_false_iff in Henabled as [Hrating Hlong].
    apply Nat.eqb_neq in Hrating. apply Nat.ltb_ge in Hlong.
    destruct (ReviewFacts.passing_submission env props rating comment
                Hrating Hlong) as [Hcall _].
    exists (expected_call props rating comment). split; [exact Hcall |].
    unfold expected_call. destruct (existingReview props); reflexivity.
  - intros (e & He & Hcall).
    destruct (submit_disabled false rating comment) eqn:Hdisabled;
      [| reflexivity].
    destruct (Hrejected eq_refl) as [_ Hnone].
    rewrite (Hnone e He) in Hcall. discriminate Hcall.
Qed.

Lemma submit_button_matches_handler_witness :
  submit_disabled false 3 "   corto   " = true
  ∧ rejected_client_side
      (handleSubmit member_env new_review (submission 3 "   corto   ")).2.
Proof.
  split; [reflexivity |].
  apply (proj2 (submit_button_matches_handler member_env new_review
                  3 "   corto   ")).
  reflexivity.
Defined.

(** Pressing the delete button never deletes: it only asks for
    confirmation (a modal on the web, a native dialog elsewhere) and sends
    nothing; it does nothing at all without an existing review or while a
    request is in flight.  [performDelete] does nothing without an existing
    review. *)
Theorem delete_asks_first (os : PlatformOS) (env : Env) (props : Props)
    (loading : bool) (m : Screen) :
  (∃ asked,
     handleDeleteReview os props loading m
     = (Resolved tt, {| steps := steps m ++ asked; requests := requests m |})
     ∧ (∀ e, e ∈ asked → is_delete_call e = false)
     ∧ (existingReview props = None ∨ loading = true → asked = [])
     ∧ (is_Some (existingReview props) → loading = false →
        asked = match os with
                | web => [setShowDeleteConfirmation true]
                | _ =>
                    [confirm "Delete Review"
                       "Are you sure you want to delete your review? This action cannot be undone."
                       ["Cancel"; "Delete"]]
                end))
  ∧ (existingReview props = None →
     performDelete env props m = (Resolved tt, m)).
Proof.
  split.
  - unfold handleDeleteReview, do, effect, ret.
    destruct (existingReview props) as [existing |], loading, os; simpl;
      (first [ exists []; split;
               [rewrite app_nil_r; destruct m; reflexivity |]
             | eexists [_]; split; [reflexivity |] ]);
      (split;
       [ intros e He;
         first [ apply list_elem_of_singleton in He as ->; reflexivity
               | inversion He ] |]);
      (split;
       [ intros [Hn | Hl]; first [reflexivity | discriminate]
       | intros [x Hx] Hl; first [reflexivity | discriminate] ]).
  - intros Hnone. unfold performDelete. rewrite Hnone. reflexivity.
Qed.

Lemma delete_asks_first_witness :
  is_Some (existingReview editing)
  ∧ handleDeleteReview android editing false idle
    = (Resolved tt,
       {| steps :=
            [confirm "Delete Review"
               "Are you sure you want to delete your review? This action cannot be undone."
               ["Cancel"; "Delete"]];
          requests := [] |}).
Proof.
  split; [eexists; reflexivity |].
  destruct (proj1 (delete_asks_first android member_env editing false idle))
    as (asked & Hrun & _ & _ & Hasked).
  rewrite Hrun, (Hasked ltac:(eexists; reflexivity) eq_refl). reflexivity.
Defined.

(** A confirmed deletion calls [deleteReview] once for the existing review
    and always ends by switching the loading flag off and hiding the
    confirmation.  On success the form is reset, the parent is notified and
    asked to close, and the success message is scheduled; on failure the
    error's message is shown and the modal is left as it is. *)
Theorem performDelete_outcome (env : Env) (props : Props)
    (existing : ExistingReview) :
  existingReview props = Some existing →
  requests (performDelete env props idle).2
  = (deleteReview env (_id existing) []).2
  ∧ steps (performDelete env props idle).2 =
    match (deleteReview env (_id existing) []).1 with
    | Resolved _ =>
        [ set_loading true; call_deleteReview (_id existing);
          set_rating 0; set_comment ""; notify_onReviewSubmitted;
          notify_onClose;
          alert_after 300 "Success" "Your review has been deleted";
          set_loading false; setShowDeleteConfirmation false ]
    | Rejected error =>
        [ set_loading true; call_deleteReview (_id existing);
          alert "Error" (error_message error);
          set_loading false; setShowDeleteConfirmation false ]
    end.
Proof.
  intros Hexisting. unfold performDelete. rewrite Hexisting.
  unfold try_catch_finally, try_catch, bind, do, effect, via_service, ret.
  cbn -[deleteReview].
  destruct (deleteReview env (_id existing) []) as [[response | e] t'];
    split; reflexivity.
Qed.

Lemma performDelete_outcome_witness :
  existingReview editing
  = Some {| _id := "rev-3"; rating := 4; comment := "Muy buen lugar" |}
  ∧ http_requests (requests (performDelete member_env editing idle).2)
    = [ {| method := DELETE; url := "/users/u-17/reviews/rev-3";
           body := None |} ].
Proof.
  split; [reflexivity |].
  rewrite (proj1 (performDelete_outcome member_env editing _ eq_refl)).
  reflexivity.
Defined.

End ReviewFlowFacts.

(** ** Submitting the menu-item form *)
Module MenuSubmitFacts.

Import AddMenuItemScreen MenuItemSubmit.

(** [isNaN(x) || x < 0] fails exactly on the numbers that are at least 0. *)
Lemma non_negative_check (x : float) :
  negb (PrimFloat.is_nan x) && negb (x <? 0)%float = (0 <=? x)%float.
Proof.
  rewrite FloatFacts.is_nan_spec, FloatAxioms.leb_spec, FloatAxioms.ltb_spec.
  unfold SpecFloat.SFleb, SpecFloat.SFltb.
  rewrite (FloatFacts.SFcompare_antisym (Prim2SF x) (Prim2SF 0)).
  replace (Prim2SF 0) with (SpecFloat.S754_zero false)
    by (vm_compute; reflexivity).
  destruct (Prim2SF x) as [s | s | | s m e]; simpl; try reflexivity;
    destruct s; reflexivity.
Qed.

Section Submit.

Variable parseFloat : string -> float.
Variable URL_parses : string -> bool.
Variable on_web : bool.
Variable remote_addMenuItem : string -> MenuItemData -> Settled unit.

(** A form that fails validation is not sent: the handler only publishes
    the errors, of which there is at least one.  A form that passes is sent
    exactly once, between switching the loading flag on and off; success
    is confirmed by the modal on the web and by an alert elsewhere, and a
    failure of the back end by an error alert. *)
Theorem menu_item_submission (barId : string) (form : MenuItemForm) :
  ((validateForm parseFloat URL_parses form).2 = false →
   handleSubmit parseFloat URL_parses on_web remote_addMenuItem barId form []
   = (Resolved tt, [setErrors (validation_errors parseFloat URL_parses form)])
   ∧ validation_errors parseFloat URL_parses form ≠ ∅)
  ∧ ((validateForm parseFloat URL_parses form).2 = true →
     handleSubmit parseFloat URL_parses on_web remote_addMenuItem barId form []
     = (Resolved tt,
        ([ setErrors ∅; setLoading true;
           addMenuItem barId (menuItemData parseFloat barId form) ]
         ++ match remote_addMenuItem barId
                    (menuItemData parseFloat barId form) with
            | Resolved _ =>
                [ setCreatedItemName (trim (AddMenuItemScreen.name form));
                  if on_web then setShowSuccessModal true
                  else Alert "Success" "Menu item created successfully" ["OK"] ]
            | Rejected _ =>
                [ Alert "Error" "Failed to create menu item. Please try again."
                    [] ]
            end
         ++ [setLoading false])%list)).
Proof.
  unfold handleSubmit, validateForm. simpl.
  split; intros Hvalid; rewrite Hvalid; simpl.
  - split; [reflexivity |].
    intros Hempty. rewrite Hempty, map_size_empty in Hvalid.
    discriminate Hvalid.
  - apply Nat.eqb_eq, map_size_empty_inv in Hvalid. rewrite Hvalid.
    unfold try_catch_finally, try_catch, bind, do, effect, ret. simpl.
    destruct (remote_addMenuItem barId (menuItemData parseFloat barId form));
      simpl; [destruct on_web |]; reflexivity.
Qed.

(** What is sent for a form that passed validation: a non-empty trimmed
    name and description, a price that is a number not below 0, an alcohol
    percentage in (0, 100] for an alcoholic item and 0 for any other
    (whatever the field holds), the volume 0 for an empty field and a
    number not below 0 for a field that is not blank, and a photo only if
    the field parses as a URL. *)
Theorem validated_item_is_well_formed (barId : string) (form : MenuItemForm) :
  (validateForm parseFloat URL_parses form).2 = true →
  let sent := menuItemData parseFloat barId form in
  name sent ≠ "" ∧ description sent ≠ ""
  ∧ (0 <=? price sent)%float = true
  ∧ match type sent with
    | alcohol => in_range (alcoholPercentage sent) = true
    | _ => alcoholPercentage sent = 0%float
    end
  ∧ (AddMenuItemScreen.volume form = "" → volume sent = 0%float)
  ∧ (trim (AddMenuItemScreen.volume form) ≠ "" →
     (0 <=? volume sent)%float = true)
  ∧ (is_Some (photo sent) →
     URL_parses (AddMenuItemScreen.photo form) = true).
Proof.
  intros Hvalid. rewrite FormFacts.validateForm_passes in Hvalid.
  apply andb_prop in Hvalid as [Hother Halcohol].
  unfold other_fields_valid, isNaN, isValidUrl in Hother.
  apply andb_prop in Hother as [Hother Hphoto].
  apply andb_prop in Hother as [Hother Hvolume].
  apply andb_prop in Hother as [Hother Hprice].
  apply andb_prop in Hother as [Hname Hdescription].
  rewrite <- andb_assoc, non_negative_check in Hprice.
  apply andb_prop in Hprice as [_ Hprice].
  rewrite non_negative_check in Hvolume.
  simpl. split; [| split; [| split; [| split; [| split; [| split]]]]].
  - intros Hempty. rewrite Hempty in Hname. discriminate Hname.
  - intros Hempty. rewrite Hempty in Hdescription. discriminate Hdescription.
  - exact Hprice.
  - destruct (AddMenuItemScreen.type form); try reflexivity.
    apply andb_prop in Halcohol as [_ Hrange]. exact Hrange.
  - intros ->. reflexivity.
  - intros Hfilled.
    destruct (AddMenuItemScreen.volume form) as [| c rest] eqn:Hraw;
      [exfalso; apply Hfilled; reflexivity |].
    simpl.
    destruct (trim (String c rest)) eqn:Htrim; [congruence |].
    simpl in Hvolume. exact Hvolume.
  - intros [url Hurl].
    destruct (AddMenuItemScreen.photo form) as [| c rest] eqn:Hraw;
      [discriminate Hurl |].
    simpl in Hphoto. exact Hphoto.
Qed.

End Submit.

Lemma menu_item_submission_witness :
  (validateForm Runtime.parseFloat_decimal Runtime.URL_parses_http
     (with_alcoholPercentage tequila "")).2 = false
  ∧ (∀ e, e ∈ (handleSubmit Runtime.parseFloat_decimal Runtime.URL_parses_http
                 true accepting "bar-1"
                 (with_alcoholPercentage tequila "") []).2 →
          is_addMenuItem e = false).
Proof.
  assert (Hinvalid :
    (validateForm Runtime.parseFloat_decimal Runtime.URL_parses_http
       (with_alcoholPercentage tequila "")).2 = false)
    by (vm_compute; reflexivity).
  split; [exact Hinvalid |].
  destruct (proj1 (menu_item_submission Runtime.parseFloat_decimal
                     Runtime.URL_parses_http true accepting "bar-1"
                     (with_alcoholPercentage tequila "")) Hinvalid)
    as [Hrun _].
  rewrite Hrun. intros e He.
  apply list_elem_of_singleton in He as ->. reflexivity.
Defined.

Lemma validated_item_is_well_formed_witness :
  (validateForm Runtime.parseFloat_decimal Runtime.URL_parses_http tacos).2
  = true
  ∧ alcoholPercentage (menuItemData Runtime.parseFloat_decimal "bar-1" tacos)
    = 0%float.
Proof.
  assert (Hvalid :
    (validateForm Runtime.parseFloat_decimal Runtime.URL_parses_http tacos).2
    = true) by (vm_compute; reflexivity).
  split; [exact Hvalid |].
  exact (proj1 (proj2 (proj2 (proj2
           (validated_item_is_well_formed Runtime.parseFloat_decimal
              Runtime.URL_parses_http "bar-1" tacos Hvalid))))).
Defined.

End MenuSubmitFacts.
